(** * k8s-debug-agent: a shallow embedding of [agent.py]

    The development follows the layout of the source file:
    Python values and exceptions, the Kubernetes objects the script reads,
    [run_cmd], [resolve_controller_for_pod], [get_failing_pods], the raw
    terminal reader and one iteration of [chat_loop] with its action
    dispatch, and the bullet normaliser [_format_bullets].

    Python [str] values are byte strings in UTF-8 (concatenation, equality and
    code-point order coincide with the ones of the byte sequences). *)

From Stdlib Require Import String Ascii List ZArith Lia Bool.
From Stdlib Require Import Sorted OrdersEx.
Import ListNotations.
Open Scope string_scope.

Set Implicit Arguments.

(** ** Python values *)

Module Py.

(** The exceptions the script can meet, all below [Exception] in the
    class hierarchy.  [CalledProcessError] carries the captured output. *)
Inductive exn : Type :=
| AttributeError
| TypeError
| ValueError
| EOFError
| ZeroDivisionError
| FileNotFoundError
| IndexError
| CalledProcessError (output : string)
| ApiException (msg : string).

(** An expression either yields a value or raises. *)
Inductive result (A : Type) : Type :=
| Ok (a : A)
| Raise (e : exn).
Arguments Ok {A} a.
Arguments Raise {A} e.

Definition bind {A B} (m : result A) (k : A -> result B) : result B :=
  match m with
  | Ok a => k a
  | Raise e => Raise e
  end.

(** [try: body / except Exception: handler] *)
Definition try_except {A} (body : result A) (handler : exn -> result A)
  : result A :=
  match body with
  | Ok a => Ok a
  | Raise e => handler e
  end.

(** Attribute access on a value that may be [None]. *)
Definition attr {A} (o : option A) : result A :=
  match o with
  | Some a => Ok a
  | None => Raise AttributeError
  end.

Definition nonempty (s : string) : bool :=
  match s with
  | EmptyString => false
  | String _ _ => true
  end.

(** Truth value of an optional string: [None] and [""] are false. *)
Definition truthy (o : option string) : bool :=
  match o with
  | Some s => nonempty s
  | None => false
  end.

(** [a or b] on optional strings. *)
Definition or_ (a b : option string) : option string :=
  if truthy a then a else b.

(** [a or d] when [d] is a string literal. *)
Definition or_str (a : option string) (d : string) : string :=
  match a with
  | Some s => if nonempty s then s else d
  | None => d
  end.

(** [l or []] *)
Definition or_nil {A} (l : option (list A)) : list A :=
  match l with
  | Some xs => xs
  | None => []
  end.

(** [sep.join(l)] *)
Fixpoint join (sep : string) (l : list string) : string :=
  match l with
  | [] => ""
  | [x] => x
  | x :: rest => x ++ sep ++ join sep rest
  end.

(** [set(l)]: the distinct elements of [l], in some order. *)
Definition set (l : list string) : list string := nodup string_dec l.

Definition str_le (a b : string) : bool :=
  match String_as_OT.compare a b with
  | Gt => false
  | _ => true
  end.

Fixpoint insert_sorted (x : string) (l : list string) : list string :=
  match l with
  | [] => [x]
  | y :: rest => if str_le x y then x :: l else y :: insert_sorted x rest
  end.

(** [sorted(l)] on strings: ascending code-point order. *)
Definition sorted (l : list string) : list string :=
  fold_right insert_sorted [] l.

Definition LF : string := String "010" "".

End Py.

Import Py.

Declare Scope py_scope.
Delimit Scope py_scope with py.
Notation "x <- m ;; k" := (bind m (fun x => k))
  (at level 61, m at next level, right associativity) : py_scope.
Open Scope py_scope.

(** ** Kubernetes objects (the fields the script reads) *)

Module K8s.

Record V1OwnerReference : Type := {
  ref_controller : option bool;
  ref_kind : string;
  ref_name : string
}.

Record V1ObjectMeta : Type := {
  meta_namespace : string;
  meta_name : string;
  owner_references : option (list V1OwnerReference)
}.

Record V1PodCondition : Type := {
  cond_type : string;
  cond_status : string;
  cond_reason : option string;
  cond_message : option string
}.

Record V1ContainerStateWaiting : Type := { waiting_reason : option string }.
Record V1ContainerStateTerminated : Type := { terminated_reason : option string }.

Record V1ContainerState : Type := {
  waiting : option V1ContainerStateWaiting;
  terminated : option V1ContainerStateTerminated
}.

Record V1ContainerStatus : Type := { state : option V1ContainerState }.

Record V1PodStatus : Type := {
  conditions : option (list V1PodCondition);
  container_statuses : option (list V1ContainerStatus);
  phase : option string
}.

Record V1Container : Type := { container_name : option string }.

Record V1PodSpec : Type := {
  init_containers : option (list V1Container);
  containers : option (list V1Container)
}.

Record V1Pod : Type := {
  metadata : option V1ObjectMeta;
  status : option V1PodStatus;
  spec : option V1PodSpec
}.

Record V1ReplicaSet : Type := { rs_metadata : option V1ObjectMeta }.
Record V1Job : Type := { job_metadata : option V1ObjectMeta }.

(** The API objects of the [kubernetes] client; every call may raise. *)
Record AppsV1Api : Type := {
  read_namespaced_replica_set : string -> string -> result V1ReplicaSet
}.

Record BatchV1Api : Type := {
  read_namespaced_job : string -> string -> result V1Job
}.

Record CoreV1Api : Type := {
  list_namespaced_pod : string -> result (list V1Pod);
  list_pod_for_all_namespaces : result (list V1Pod);
  read_namespaced_pod : string -> string -> result V1Pod
}.

(** The module [kubernetes.client]. *)
Record Client : Type := {
  new_AppsV1Api : result AppsV1Api;
  new_BatchV1Api : result BatchV1Api;
  new_CoreV1Api : result CoreV1Api
}.

End K8s.

Import K8s.

(** ** [resolve_controller_for_pod] *)

(** [getattr(ref, "controller", False)] as a condition. *)
Definition is_controller (r : V1OwnerReference) : bool :=
  match ref_controller r with
  | Some b => b
  | None => false
  end.

(** Lines 102-108: the first reference flagged as controller, else the
    first reference. *)
Definition select_controller_ref (owner_refs : list V1OwnerReference)
  : option V1OwnerReference :=
  match find is_controller owner_refs with
  | Some r => Some r
  | None => hd_error owner_refs
  end.

(** Lines 121-124: the loop over the ReplicaSet's owners. *)
Fixpoint deployment_owner (rs_owners : list V1OwnerReference) : option string :=
  match rs_owners with
  | [] => None
  | r :: rest =>
      if is_controller r && (ref_kind r =? "Deployment")
      then Some (ref_name r)
      else deployment_owner rest
  end.

Definition controller := (option string * option string)%type.

Section Resolve.

Variable client : Client.

(** The body of the outer [try]. *)
Definition resolve_body (pod : V1Pod) : result controller :=
  apps_v1 <- new_AppsV1Api client ;;
  batch_v1 <- new_BatchV1Api client ;;
  meta <- attr (metadata pod) ;;
  let owner_refs := or_nil (owner_references meta) in
  match select_controller_ref owner_refs with
  | None => Ok (None, None)
  | Some controller_ref =>
      let kind := ref_kind controller_ref in
      let name := ref_name controller_ref in
      let namespace := meta_namespace meta in
      if kind =? "ReplicaSet" then
        try_except
          (rs <- read_namespaced_replica_set apps_v1 name namespace ;;
           rs_meta <- attr (rs_metadata rs) ;;
           match deployment_owner (or_nil (owner_references rs_meta)) with
           | Some d => Ok (Some "Deployment", Some d)
           | None => Ok (Some "ReplicaSet", Some name)
           end)
          (fun _ => Ok (Some "ReplicaSet", Some name))
      else if (kind =? "StatefulSet") || (kind =? "DaemonSet") then
        Ok (Some kind, Some name)
      else if kind =? "Job" then
        try_except
          (job <- read_namespaced_job batch_v1 name namespace ;;
           Ok (Some "Job", Some name))
          (fun _ => Ok (Some "Job", Some name))
      else Ok (Some kind, Some name)
  end.

Definition resolve_controller_for_pod (pod : V1Pod) : result controller :=
  try_except (resolve_body pod) (fun _ => Ok (None, None)).

End Resolve.

(** ** [get_failing_pods] *)

(** One row of the result: (namespace, name, reason, controller_kind,
    controller_name). *)
Definition failing_pod := (string * string * string * option string * option string)%type.

(** Lines 163-167: the first condition whose type is "Ready". *)
Definition find_ready_condition (conds : list V1PodCondition)
  : option V1PodCondition :=
  find (fun condition => cond_type condition =? "Ready") conds.

(** Lines 169-172. *)
Definition is_ready (ready_condition : option V1PodCondition) : bool :=
  match ready_condition with
  | Some c => cond_status c =? "True"
  | None => false
  end.

(** Lines 185-193: what one container status adds to [container_reasons]. *)
Definition reasons_of_status (cs : V1ContainerStatus) : list string :=
  match state cs with
  | None => []
  | Some st =>
      (match waiting st with
       | Some w => if truthy (waiting_reason w)
                   then [or_str (waiting_reason w) ""] else []
       | None => []
       end)
      ++
      (match terminated st with
       | Some t => if truthy (terminated_reason t)
                   then [or_str (terminated_reason t) ""] else []
       | None => []
       end)
  end.

Definition collect_container_reasons (st : V1PodStatus) : list string :=
  flat_map reasons_of_status (or_nil (container_statuses st)).

(** Lines 175-198: the reason of a pod that is not ready. *)
Definition derive_reason (st : V1PodStatus)
  (ready_condition : option V1PodCondition) : string :=
  let reason : option string := None in
  let reason :=
    match ready_condition with
    | Some c => or_ (cond_reason c) (cond_message c)
    | None => reason
    end in
  let reason :=
    if negb (truthy reason) then
      let container_reasons := collect_container_reasons st in
      match container_reasons with
      | [] => reason
      | _ :: _ => Some (join ", " (sorted (set container_reasons)))
      end
    else reason in
  if negb (truthy reason) then or_str (phase st) "NotReady"
  else or_str reason "".

Section Scan.

Variable client : Client.

(** The body of the loop over [pods.items]: [None] stands for a pod that
    adds nothing to [not_ready]. *)
Definition scan_pod (pod : V1Pod) : result (option failing_pod) :=
  st <- attr (status pod) ;;
  let ready_condition := find_ready_condition (or_nil (conditions st)) in
  if negb (is_ready ready_condition) then
    let reason := derive_reason st ready_condition in
    if reason =? "PodCompleted" then Ok None
    else
      ctrl <- resolve_controller_for_pod client pod ;;
      meta <- attr (metadata pod) ;;
      Ok (Some (meta_namespace meta, meta_name meta, reason, fst ctrl, snd ctrl))
  else Ok None.

Fixpoint scan_items (items : list V1Pod) (not_ready : list failing_pod)
  : result (list failing_pod) :=
  match items with
  | [] => Ok not_ready
  | pod :: rest =>
      r <- scan_pod pod ;;
      scan_items rest
        (match r with
         | Some row => not_ready ++ [row]
         | None => not_ready
         end)
  end.

Definition get_failing_pods (namespace : option string)
  : result (list failing_pod) :=
  v1 <- new_CoreV1Api client ;;
  pods <- (if truthy namespace
           then list_namespaced_pod v1 (or_str namespace "")
           else list_pod_for_all_namespaces v1) ;;
  scan_items pods [].

End Scan.

(** ** [run_cmd] *)

(** An argument vector as the script builds it: an element is [None] when
    an optional field of the request was passed through unset. *)
Definition argv := list (option string).

Fixpoint all_str (cmd : argv) : option (list string) :=
  match cmd with
  | [] => Some []
  | Some s :: rest =>
      match all_str rest with
      | Some l => Some (s :: l)
      | None => None
      end
  | None :: _ => None
  end.

Section RunCmd.

(** The operating system side of [subprocess.check_output(cmd, text=True)]
    for a vector of strings: the captured output, [CalledProcessError] on a
    non-zero exit status, or another exception when the program cannot be
    started. *)
Variable spawn : list string -> result string.

(** [subprocess.check_output]: a vector holding [None] is refused with
    [TypeError] before anything is run. *)
Definition check_output (cmd : argv) : result string :=
  match all_str cmd with
  | Some args => spawn args
  | None => Raise TypeError
  end.

(** f"❌ Error executing {' '.join(cmd)}:\n{e.output}" *)
Definition error_text (args : list string) (output : string) : string :=
  "❌ Error executing " ++ join " " args ++ ":" ++ LF ++ output.

Definition run_cmd (cmd : argv) : result string :=
  match check_output cmd with
  | Ok out => Ok out
  | Raise (CalledProcessError output) =>
      match all_str cmd with
      | Some args => Ok (error_text args output)
      | None => Raise TypeError
      end
  | Raise e => Raise e
  end.

End RunCmd.

(** ** Text helpers of the chat loop *)

Module Text.

Definition code (c : ascii) : nat := nat_of_ascii c.

(** ASCII white space as [str.strip] and [str.split] see it. *)
Definition is_space (c : ascii) : bool :=
  let n := code c in
  (((9 <=? n) && (n <=? 13)) || ((28 <=? n) && (n <=? 32)))%nat.

Fixpoint lstrip (s : string) : string :=
  match s with
  | EmptyString => EmptyString
  | String c rest => if is_space c then lstrip rest else s
  end.

(** [rstrip]: a character is kept when something that is not white space
    follows it or it is not white space itself. *)
Fixpoint rstrip (s : string) : string :=
  match s with
  | EmptyString => EmptyString
  | String c rest =>
      match rstrip rest with
      | EmptyString => if is_space c then EmptyString else String c EmptyString
      | kept => String c kept
      end
  end.

(** [s.strip()] *)
Definition strip (s : string) : string := rstrip (lstrip s).

Definition lower_char (c : ascii) : ascii :=
  let n := code c in
  if ((65 <=? n) && (n <=? 90))%nat then ascii_of_nat (n + 32) else c.

(** [s.lower()] on ASCII text. *)
Fixpoint lower (s : string) : string :=
  match s with
  | EmptyString => EmptyString
  | String c rest => String (lower_char c) (lower rest)
  end.

(** [s.startswith(p)] *)
Definition startswith (s p : string) : bool := String.prefix p s.

(** [s.split()]: the maximal runs of characters that are not white space;
    [cur] is the run being read. *)
Fixpoint split_from (s cur : string) : list string :=
  match s with
  | EmptyString => if nonempty cur then [cur] else []
  | String c rest =>
      if is_space c
      then (if nonempty cur then cur :: split_from rest "" else split_from rest "")
      else split_from rest (cur ++ String c "")
  end.

Definition split (s : string) : list string := split_from s "".

(** [str(x)] of an optional string inside an f-string. *)
Definition show (o : option string) : string :=
  match o with
  | Some s => s
  | None => "None"
  end.

End Text.

(** ** [_format_bullets]

    The two substitutions work on the characters of the text.  A character
    is a lead byte with the continuation bytes that follow it. *)

Module Bullets.

Definition char := string.

Definition is_continuation (b : ascii) : bool :=
  let n := nat_of_ascii b in ((128 <=? n) && (n <? 192))%nat.

(** [cur] is the character being read, if any. *)
Fixpoint chars_from (s : string) (cur : option char) : list char :=
  match s with
  | EmptyString => match cur with Some c => [c] | None => [] end
  | String b rest =>
      match cur with
      | Some c =>
          if is_continuation b
          then chars_from rest (Some (c ++ String b ""))
          else c :: chars_from rest (Some (String b ""))
      | None => chars_from rest (Some (String b ""))
      end
  end.

Definition chars (s : string) : list char := chars_from s None.

Definition unchars (l : list char) : string := String.concat "" l.

Definition bytes (l : list nat) : string :=
  string_of_list_ascii (map ascii_of_nat l).

Definition char_in (c : char) (l : list char) : bool :=
  existsb (String.eqb c) l.

(** The class [[-•*]]. *)
Definition is_glyph (c : char) : bool := char_in c ["-"; "•"; "*"].

(** The class [\s] of a [str] pattern: the ASCII white space and the
    Unicode white space U+0085, U+00A0, U+1680, U+2000-U+200A, U+2028,
    U+2029, U+202F, U+205F, U+3000. *)
Definition is_space (c : char) : bool :=
  char_in c
    [bytes [9]; bytes [10]; bytes [11]; bytes [12]; bytes [13];
     bytes [28]; bytes [29]; bytes [30]; bytes [31]; bytes [32];
     bytes [194; 133]; bytes [194; 160]; bytes [225; 154; 128];
     bytes [226; 128; 128]; bytes [226; 128; 129]; bytes [226; 128; 130];
     bytes [226; 128; 131]; bytes [226; 128; 132]; bytes [226; 128; 133];
     bytes [226; 128; 134]; bytes [226; 128; 135]; bytes [226; 128; 136];
     bytes [226; 128; 137]; bytes [226; 128; 138]; bytes [226; 128; 168];
     bytes [226; 128; 169]; bytes [226; 128; 175]; bytes [226; 129; 159];
     bytes [227; 128; 128]].

Definition is_ascii_digit (c : char) : bool :=
  char_in c ["0"; "1"; "2"; "3"; "4"; "5"; "6"; "7"; "8"; "9"].

Definition is_dot (c : char) : bool := String.eqb c ".".

(** A character of one byte below 128. *)
Definition is_ascii (c : char) : bool :=
  match c with
  | String b EmptyString => (nat_of_ascii b <? 128)%nat
  | _ => false
  end.

Definition newline : char := LF.

(** Length of the longest prefix whose characters are all in the class. *)
Fixpoint run (class : char -> bool) (l : list char) : nat :=
  match l with
  | [] => 0
  | c :: rest => if class c then S (run class rest) else 0
  end.

(** [(?<!^)(?<!\n)]: some character precedes, and it is not a line feed. *)
Definition lookbehind (prev : option char) : bool :=
  match prev with
  | None => false
  | Some c => negb (String.eqb c newline)
  end.

Section Sub.

(** Length of the match of the pattern's body at the head of the text,
    0 when it does not match there. *)
Variable body : list char -> nat.

(** [re.sub(pattern, r"\n\1", text)]: the text is scanned from the left;
    [prev] is the character before the current one and [inside] counts
    the characters of the current match still to be copied. *)
Fixpoint sub_from (prev : option char) (inside : nat) (l : list char)
  : list char :=
  match l with
  | [] => []
  | c :: rest =>
      match inside with
      | S k => c :: sub_from (Some c) k rest
      | O =>
          match (if lookbehind prev then body l else 0) with
          | O => c :: sub_from (Some c) 0 rest
          | S k => newline :: c :: sub_from (Some c) k rest
          end
      end
  end.

Definition sub (l : list char) : list char := sub_from None 0 l.

End Sub.

(** [[-•*]\s+] *)
Definition bullet_body (l : list char) : nat :=
  match l with
  | [] => 0
  | c :: rest =>
      if is_glyph c
      then match run is_space rest with
           | O => 0
           | S k => S (S k)
           end
      else 0
  end.

Section Numbered.

(** The decimal digits of Unicode outside ASCII (category Nd). *)
Variable unicode_decimal : char -> bool.

(** The class [\d]: the ASCII digits, and beyond ASCII what the Unicode
    table says. *)
Definition is_digit (c : char) : bool :=
  if is_ascii c then is_ascii_digit c else unicode_decimal c.

(** [\d+\.\s+]: the digits are taken greedily; a shorter run of digits
    would put a digit where the dot has to be. *)
Definition numbered_body (l : list char) : nat :=
  match run is_digit l with
  | O => 0
  | S d =>
      match skipn (S d) l with
      | [] => 0
      | c :: rest =>
          if is_dot c
          then match run is_space rest with
               | O => 0
               | S k => S d + 1 + S k
               end
          else 0
      end
  end.

Definition _format_bullets (text : string) : string :=
  let text := sub bullet_body (chars text) in
  let text := sub numbered_body text in
  unchars text.

End Numbered.

End Bullets.

(** ** The oracle's replies *)

Inductive action_type : Type :=
| DESCRIBE_POD | LOGS | DESCRIBE_DEPLOYMENT | GET_CONFIGMAP | GET_EVENTS | STOP.

Definition type_name (t : action_type) : string :=
  match t with
  | DESCRIBE_POD => "DESCRIBE_POD"
  | LOGS => "LOGS"
  | DESCRIBE_DEPLOYMENT => "DESCRIBE_DEPLOYMENT"
  | GET_CONFIGMAP => "GET_CONFIGMAP"
  | GET_EVENTS => "GET_EVENTS"
  | STOP => "STOP"
  end.

Record ActionRequest : Type := {
  req_type : action_type;
  req_namespace : option string;
  req_name : option string
}.

Record FinalAnalysis : Type := {
  root_cause : string;
  remediation : string
}.

(** A run output that is neither of the two models: what lines 485-498
    read from it. *)
Record PlainOutput : Type := {
  output_text : option string;
  model_dump_json : option string;
  str_result : string
}.

Inductive reply : Type :=
| Action (result : ActionRequest)
| Final (result : FinalAnalysis)
| Plain (run_output : PlainOutput).

(** ** The terminal *)

(** What the operator will type: the keys read one at a time in raw mode by
    [read_user_input_or_ctrl_n], and the lines answered to [input()] at the
    container prompt.  Text written to the terminal is not part of the
    model. *)
Record terminal : Type := {
  keys : list ascii;
  replies : list string
}.

Definition CTRL_N : ascii := "014"%char.
Definition CR : ascii := "013"%char.
Definition NL : ascii := "010"%char.
Definition DEL : ascii := "127"%char.

Definition printable (ch : ascii) : bool :=
  let n := nat_of_ascii ch in ((32 <=? n) && (n <=? 126))%nat.

(** Lines 275-295: the loop of the reader over the keys still to come, with
    the line buffer.  [None]: the keys ran out and the reader waits. *)
Fixpoint read_keys (ks : list ascii) (buffer : list ascii)
  : option (string * bool * list ascii) :=
  match ks with
  | [] => None
  | ch :: rest =>
      if Ascii.eqb ch CTRL_N then Some ("", true, rest)
      else if Ascii.eqb ch CR || Ascii.eqb ch NL
      then Some (Text.strip (string_of_list_ascii buffer), false, rest)
      else if Ascii.eqb ch DEL then read_keys rest (removelast buffer)
      else if printable ch then read_keys rest (buffer ++ [ch])
      else read_keys rest buffer
  end.

Definition read_user_input_or_ctrl_n (ks : list ascii)
  : option (string * bool * list ascii) :=
  read_keys ks [].

(** ** [chat_loop] *)

Record session : Type := {
  cur_ns : string;
  cur_pod : string;
  cur_reason : string;
  current_idx : nat;
  context : string
}.

(** f"Pod {pod} in namespace {ns} is failing: {reason}" *)
Definition describe (ns pod reason : string) : string :=
  "Pod " ++ pod ++ " in namespace " ++ ns ++ " is failing: " ++ reason.

Definition row_ns (t : failing_pod) : string := fst (fst (fst (fst t))).
Definition row_pod (t : failing_pod) : string := snd (fst (fst (fst t))).
Definition row_reason (t : failing_pod) : string := snd (fst (fst t)).

(** Lines 313-314 and 328-329: select the row at [idx]. *)
Definition select_row (idx : nat) (t : failing_pod) : session :=
  {| cur_ns := row_ns t;
     cur_pod := row_pod t;
     cur_reason := row_reason t;
     current_idx := idx;
     context := describe (row_ns t) (row_pod t) (row_reason t) |}.

Definition set_context (s : session) (c : string) : session :=
  {| cur_ns := cur_ns s;
     cur_pod := cur_pod s;
     cur_reason := cur_reason s;
     current_idx := current_idx s;
     context := c |}.

(** Lines 300-307: the index of the first row equal to the selection. *)
Fixpoint index_of (ns pod reason : string) (rows : list failing_pod) (i : nat)
  : option nat :=
  match rows with
  | [] => None
  | t :: rest =>
      if (row_ns t =? ns) && (row_pod t =? pod) && (row_reason t =? reason)
      then Some i
      else index_of ns pod reason rest (S i)
  end.

Definition initial_session (ns pod reason : string) (all_pods : list failing_pod)
  : session :=
  {| cur_ns := ns;
     cur_pod := pod;
     cur_reason := reason;
     current_idx := match index_of ns pod reason all_pods 0 with
                    | Some i => i
                    | None => 0
                    end;
     context := describe ns pod reason |}.

(** Lines 386-401: the names of the init containers, then of the
    containers, the unnamed ones left out. *)
Definition names_of (cs : option (list V1Container)) : list string :=
  flat_map
    (fun c => if truthy (container_name c) then [or_str (container_name c) ""] else [])
    (or_nil cs).

Definition enumerate_container_names (pod_obj : V1Pod) : list string :=
  match spec pod_obj with
  | Some sp => names_of (init_containers sp) ++ names_of (containers sp)
  | None => []
  end.

(** [dict.fromkeys]: the keys of the dictionary in insertion order; a key
    already present keeps its place. *)
Definition dict_insert (d : list string) (k : string) : list string :=
  if existsb (String.eqb k) d then d else d ++ [k].

Definition dict_fromkeys (ks : list string) : list string :=
  fold_left dict_insert ks [].

(** [if selected_container: cmd.extend(["-c", selected_container])] *)
Definition logs_cmd (target_pod target_namespace : string)
  (selected_container : option string) : argv :=
  ([Some "kubectl"; Some "logs"; Some target_pod; Some "-n";
    Some target_namespace; Some "--tail=100"]
   ++ (if truthy selected_container
       then [Some "-c"; Some (or_str selected_container "")]
       else []))%list.

Inductive step_result : Type :=
| Continue (s : session) (t : terminal)
| Exited (t : terminal)
| Crashed (e : exn) (t : terminal)
| Waiting.

Section Chat.

Variable client : Client.
Variable spawn : list string -> result string.
(** [agent.run(user_prompt=...)] *)
Variable agent_run : string -> result reply.
(** The builtin [int] on a string; [None] stands for [ValueError]. *)
Variable int : string -> option Z.
Variable unicode_decimal : Bullets.char -> bool.
Variable all_pods : list failing_pod.

(** Lines 408-417: the prompt is repeated until a line holds a number
    between 1 and the number of names; [EOFError] when no line is left. *)
Fixpoint select_loop (unique_names : list string) (lines : list string)
  : result string * list string :=
  match lines with
  | [] => (Raise EOFError, [])
  | line :: rest =>
      match int line with
      | None => select_loop unique_names rest
      | Some v =>
          let choice := (v - 1)%Z in
          if ((0 <=? choice) && (choice <? Z.of_nat (length unique_names)))%Z
          then (Ok (nth (Z.to_nat choice) unique_names ""), rest)
          else select_loop unique_names rest
      end
  end.

(** Lines 378-421: the body of the [try] and its handler. *)
Definition choose_container (target_pod target_namespace : string)
  (t : terminal) : option string * terminal :=
  let attempt : result (option string) * terminal :=
    match new_CoreV1Api client with
    | Raise e => (Raise e, t)
    | Ok v1 =>
        match read_namespaced_pod v1 target_pod target_namespace with
        | Raise e => (Raise e, t)
        | Ok pod_obj =>
            let unique_names :=
              dict_fromkeys (enumerate_container_names pod_obj) in
            if (1 <? length unique_names)%nat then
              let (r, rest) := select_loop unique_names (replies t) in
              (bind r (fun c => Ok (Some c)),
               {| keys := keys t; replies := rest |})
            else if (length unique_names =? 1)%nat then
              (Ok (Some (nth 0 unique_names "")), t)
            else (Ok None, t)
        end
    end in
  match attempt with
  | (Ok selected_container, t') => (selected_container, t')
  | (Raise _, t') => (None, t')
  end.

(** Lines 363-462: the command of each action type; [None] is the last
    [else], which runs nothing. *)
Definition action_query (result : ActionRequest) (s : session) (t : terminal)
  : option argv * terminal :=
  match req_type result with
  | DESCRIBE_POD =>
      (Some [Some "kubectl"; Some "describe"; Some "pod"; req_name result;
             Some "-n"; req_namespace result], t)
  | LOGS =>
      let target_namespace := or_str (req_namespace result) (cur_ns s) in
      let target_pod := or_str (req_name result) (cur_pod s) in
      let (selected_container, t') :=
        choose_container target_pod target_namespace t in
      (Some (logs_cmd target_pod target_namespace selected_container), t')
  | DESCRIBE_DEPLOYMENT =>
      (Some [Some "kubectl"; Some "describe"; Some "deployment";
             req_name result; Some "-n"; req_namespace result], t)
  | GET_CONFIGMAP =>
      (Some [Some "kubectl"; Some "get"; Some "configmap"; req_name result;
             Some "-n"; req_namespace result; Some "-o"; Some "yaml"], t)
  | GET_EVENTS =>
      (Some [Some "kubectl"; Some "get"; Some "events"; Some "-n";
             req_namespace result], t)
  | STOP => (None, t)
  end.

Definition dispatch (result : ActionRequest) (s : session) (t : terminal)
  : Py.result string * terminal :=
  match action_query result s t with
  | (Some cmd, t') => (run_cmd spawn cmd, t')
  | (None, t') =>
      (Ok ("⚠️ Unknown action: " ++ type_name (req_type result)), t')
  end.

(** Lines 466, 483 and 500: the block a reply adds to the context. *)
Definition result_block (result : ActionRequest) (output : string) : string :=
  LF ++ LF ++ "# Result of " ++ type_name (req_type result) ++ " ("
  ++ Text.show (req_namespace result) ++ "/" ++ Text.show (req_name result)
  ++ ")" ++ LF ++ output ++ LF.

Definition analysis_block (result : FinalAnalysis) : string :=
  LF ++ LF ++ "# Final Analysis" ++ LF ++ "Root Cause: " ++ root_cause result
  ++ LF ++ "Remediation:" ++ LF
  ++ Bullets._format_bullets unicode_decimal (remediation result) ++ LF.

Definition plain_text (o : PlainOutput) : string :=
  let text := output_text o in
  let text := if negb (truthy text) then model_dump_json o else text in
  if negb (truthy text) then str_result o else or_str text "".

Definition response_block (o : PlainOutput) : string :=
  LF ++ LF ++ "# Model Response" ++ LF ++ plain_text o ++ LF.

(** Lines 339-500: one call of the oracle and the handling of its reply. *)
Definition oracle_turn (user_input : string) (s : session) (t : terminal)
  : step_result :=
  let user_prompt := context s ++ LF ++ "User: " ++ user_input in
  match agent_run user_prompt with
  | Raise _ => Continue s t
  | Ok (Action result) =>
      match req_type result with
      | STOP => Exited t
      | _ =>
          match dispatch result s t with
          | (Ok output, t') =>
              Continue (set_context s (context s ++ result_block result output)) t'
          | (Raise e, t') => Crashed e t'
          end
      end
  | Ok (Final result) =>
      Continue (set_context s (context s ++ analysis_block result)) t
  | Ok (Plain o) =>
      Continue (set_context s (context s ++ response_block o)) t
  end.

(** Lines 312-315: CTRL+n. *)
Definition switch_next (s : session) (t : terminal) : step_result :=
  match length all_pods with
  | O => Crashed ZeroDivisionError t
  | S _ =>
      let idx := (current_idx s + 1) mod length all_pods in
      match nth_error all_pods idx with
      | Some row => Continue (select_row idx row) t
      | None => Crashed IndexError t
      end
  end.

(** Lines 323-337: the text command "switch <number>"; whatever fails
    inside the [try] leaves the session as it is. *)
Definition switch_command (user_input : string) (s : session) (t : terminal)
  : step_result :=
  match nth_error (Text.split user_input) 1 with
  | None => Continue s t
  | Some word =>
      match int word with
      | None => Continue s t
      | Some v =>
          let idx := (v - 1)%Z in
          if ((0 <=? idx) && (idx <? Z.of_nat (length all_pods)))%Z then
            match nth_error all_pods (Z.to_nat idx) with
            | Some row => Continue (select_row (Z.to_nat idx) row) t
            | None => Continue s t
            end
          else Continue s t
      end
  end.

(** Lines 310-500: one turn of the [while True] loop. *)
Definition chat_iteration (s : session) (t : terminal) : step_result :=
  match read_user_input_or_ctrl_n (keys t) with
  | None => Waiting
  | Some (user_input, ctrl_n, rest) =>
      let t := {| keys := rest; replies := replies t |} in
      if ctrl_n then switch_next s t
      else
        let user_input := Text.strip user_input in
        if existsb (String.eqb (Text.lower user_input)) ["exit"; "quit"]
        then Exited t
        else if Text.startswith user_input "switch"
        then switch_command user_input s t
        else oracle_turn user_input s t
  end.

(** The loop, for at most [fuel] turns. *)
Fixpoint chat_loop (fuel : nat) (s : session) (t : terminal) : step_result :=
  match fuel with
  | O => Continue s t
  | S n =>
      match chat_iteration s t with
      | Continue s' t' => chat_loop n s' t'
      | r => r
      end
  end.

End Chat.

Definition request (ty : action_type) (ns name : option string) : ActionRequest :=
  {| req_type := ty; req_namespace := ns; req_name := name |}.

(** ** Definitions that follow the words of the specification

    They are compared below with the ones translated from the source. *)

Module Spec.

(** An owner reference is flagged as the managing controller when its
    field [controller] is set and true. *)
Definition flagged (r : V1OwnerReference) : bool :=
  match ref_controller r with
  | Some true => true
  | _ => false
  end.

(** 4.2, step 1: the reference flagged as the managing controller; if none
    is flagged, the first reference; nothing for an empty list. *)
Definition selected_owner (refs : list V1OwnerReference)
  : option V1OwnerReference :=
  match filter flagged refs with
  | r :: _ => Some r
  | [] => hd_error refs
  end.

(** An owner reference flagged as controller with kind Deployment. *)
Definition deployment_ref (r : V1OwnerReference) : Prop :=
  ref_controller r = Some true /\ ref_kind r = "Deployment".



(** The condition the scan reads the readiness of a pod from. *)
Definition ready_condition (st : V1PodStatus) : option V1PodCondition :=
  find_ready_condition (or_nil (conditions st)).

(** Not ready, as the scan tests it: that condition is missing, or its
    status is not "True". *)
Definition not_ready (st : V1PodStatus) : Prop :=
  forall c, ready_condition st = Some c -> cond_status c <> "True".




(** De-duplication by first occurrence. *)
Fixpoint dedup_first (l : list string) : list string :=
  match l with
  | [] => []
  | x :: rest => x :: filter (fun y => negb (String.eqb y x)) (dedup_first rest)
  end.

(** The names of the containers of a list, in the order of the list: the
    field [name] of each container that has one. *)
Definition names (cs : option (list V1Container)) : list string :=
  flat_map
    (fun c => match container_name c with
              | Some (String a n) => [String a n]
              | _ => []
              end)
    (or_nil cs).

(** 4.5: the names of the init containers of the pod, then the names of its
    regular containers. *)
Definition container_names (pod_obj : V1Pod) : list string :=
  match spec pod_obj with
  | Some sp => names (init_containers sp) ++ names (containers sp)
  | None => []
  end.

(** [x] is the name of an init container or of a regular container of the
    pod. *)
Definition container_named (pod_obj : V1Pod) (x : string) : Prop :=
  exists sp c,
    spec pod_obj = Some sp
    /\ (In c (or_nil (init_containers sp)) \/ In c (or_nil (containers sp)))
    /\ container_name c = Some x
    /\ x <> "".

End Spec.

(** ** Vocabulary of the statements *)




(** A pod as the API server lists it carries its metadata and its status. *)
Definition listed (pod : V1Pod) : bool :=
  match status pod, metadata pod with
  | Some _, Some _ => true
  | _, _ => false
  end.

(** No two conditions of the pod have the same type. *)
Definition one_condition_per_type (st : V1PodStatus) : Prop :=
  NoDup (map cond_type (or_nil (conditions st))).

(** A key that neither commits the line nor switches the target. *)
Definition uncommitted (ch : ascii) : bool :=
  negb (Ascii.eqb ch CTRL_N || Ascii.eqb ch CR || Ascii.eqb ch NL).

(** Text that is neither an exit keyword nor a switch command. *)
Definition ordinary (user_input : string) : bool :=
  negb (existsb (String.eqb (Text.lower user_input)) ["exit"; "quit"])
  && negb (Text.startswith user_input "switch").

(** A line the container prompt accepts: a number from 1 to the number of
    names. *)
Definition accepted (int : string -> option Z) (names : list string)
  (line : string) : bool :=
  match int line with
  | Some k => ((1 <=? k) && (k <=? Z.of_nat (length names)))%Z
  | None => false
  end.

Definition rejected (int : string -> option Z) (names : list string)
  (line : string) : bool :=
  negb (accepted int names line).

(** The LOGS command before any container is added. *)
Definition logs_base (target_pod target_namespace : string) : argv :=
  [Some "kubectl"; Some "logs"; Some target_pod; Some "-n";
   Some target_namespace; Some "--tail=100"].

(** [needle in hay] *)
Fixpoint contains (needle hay : string) : bool :=
  match hay with
  | EmptyString => String.prefix needle hay
  | String _ rest => String.prefix needle hay || contains needle rest
  end.

(** [l'] is [l] with line feeds added and nothing else changed. *)
Inductive line_feeds_added : list Bullets.char -> list Bullets.char -> Prop :=
| added_nil : line_feeds_added [] []
| added_keep (c : Bullets.char) (l l' : list Bullets.char) :
    line_feeds_added l l' -> line_feeds_added (c :: l) (c :: l')
| added_feed (l l' : list Bullets.char) :
    line_feeds_added l l' -> line_feeds_added l (Bullets.newline :: l').

(** ** A small cluster, for the worked cases *)

Module Demo.

Definition owner (kind name : string) : V1OwnerReference :=
  {| ref_controller := Some true; ref_kind := kind; ref_name := name |}.

Definition meta (name : string) (owners : list V1OwnerReference) : V1ObjectMeta :=
  {| meta_namespace := "prod"; meta_name := name;
     owner_references := Some owners |}.

Definition ready (value : string) (why : option string) : V1PodCondition :=
  {| cond_type := "Ready"; cond_status := value;
     cond_reason := why; cond_message := None |}.

Definition waits (why : string) : V1ContainerStatus :=
  {| state := Some {| waiting := Some {| waiting_reason := Some why |};
                      terminated := None |} |}.

Definition named (name : string) : V1Container :=
  {| container_name := Some name |}.

(** api-1: not ready, its container restarts; owned by a ReplicaSet of the
    Deployment api. *)
Definition crashing : V1Pod :=
  {| metadata := Some (meta "api-1" [owner "ReplicaSet" "api-7d9"]);
     status := Some {| conditions := Some [ready "False" None];
                       container_statuses := Some [waits "CrashLoopBackOff"];
                       phase := Some "Running" |};
     spec := Some {| init_containers := None;
                     containers := Some [named "app"] |} |}.

Definition healthy : V1Pod :=
  {| metadata := Some (meta "api-2" [owner "ReplicaSet" "api-7d9"]);
     status := Some {| conditions := Some [ready "True" None];
                       container_statuses := None;
                       phase := Some "Running" |};
     spec := Some {| init_containers := None;
                     containers := Some [named "app"] |} |}.

Definition finished : V1Pod :=
  {| metadata := Some (meta "migrate-x" [owner "Job" "migrate"]);
     status := Some {| conditions := Some [ready "False" (Some "PodCompleted")];
                       container_statuses := None;
                       phase := Some "Succeeded" |};
     spec := Some {| init_containers := None;
                     containers := Some [named "job"] |} |}.

(** web-0: an init container and two containers. *)
Definition sidecars : V1Pod :=
  {| metadata := Some (meta "web-0" [owner "StatefulSet" "web"]);
     status := Some {| conditions := None;
                       container_statuses := None;
                       phase := Some "Pending" |};
     spec := Some {| init_containers := Some [named "init"];
                     containers := Some [named "web"; named "proxy"] |} |}.

Definition pods : list V1Pod := [crashing; healthy; finished; sidecars].

Definition apps : AppsV1Api :=
  {| read_namespaced_replica_set := fun name _ =>
       if name =? "api-7d9"
       then Ok {| rs_metadata := Some (meta "api-7d9" [owner "Deployment" "api"]) |}
       else Raise (ApiException "Not Found") |}.

Definition batch : BatchV1Api :=
  {| read_namespaced_job := fun _ _ => Raise (ApiException "Not Found") |}.

Definition core : CoreV1Api :=
  {| list_namespaced_pod := fun _ => Ok pods;
     list_pod_for_all_namespaces := Ok pods;
     read_namespaced_pod := fun name _ =>
       match find (fun p => match metadata p with
                            | Some m => meta_name m =? name
                            | None => false
                            end) pods with
       | Some p => Ok p
       | None => Raise (ApiException "Not Found")
       end |}.

Definition client : Client :=
  {| new_AppsV1Api := Ok apps;
     new_BatchV1Api := Ok batch;
     new_CoreV1Api := Ok core |}.

Definition rows : list failing_pod :=
  [("prod", "api-1", "CrashLoopBackOff", Some "Deployment", Some "api");
   ("prod", "web-0", "Pending", Some "StatefulSet", Some "web")].

End Demo.

(** ** Sessions on the small cluster *)

(** The status of a listed pod. *)
Definition status_of (pod : V1Pod) : V1PodStatus :=
  match status pod with
  | Some st => st
  | None => {| conditions := None; container_statuses := None; phase := None |}
  end.

(** [int] on decimal digits, enough for the worked cases. *)
Definition digit_value (c : ascii) : option Z :=
  let n := nat_of_ascii c in
  if ((48 <=? n) && (n <=? 57))%nat then Some (Z.of_nat (n - 48)) else None.

Fixpoint decimal_from (s : string) (acc : Z) : option Z :=
  match s with
  | EmptyString => Some acc
  | String c rest =>
      match digit_value c with
      | Some d => decimal_from rest (10 * acc + d)
      | None => None
      end
  end.

Definition demo_int (s : string) : option Z :=
  match Text.strip s with
  | EmptyString => None
  | digits => decimal_from digits 0
  end.

Definition no_unicode_decimal (c : Bullets.char) : bool := false.

(** The session on the first row of the small cluster, and an operator who
    starts a word and then presses CTRL+n. *)
Definition demo_session : session :=
  initial_session "prod" "api-1" "CrashLoopBackOff" Demo.rows.

Definition demo_keys : list ascii :=
  list_ascii_of_string "wh" ++ [CTRL_N] ++ list_ascii_of_string "rest".

Definition demo_terminal : terminal := {| keys := demo_keys; replies := [] |}.

(** A session on web-0, whose pod has three container names. *)
Definition sidecar_session : session :=
  initial_session "prod" "web-0" "Pending" Demo.rows.

(** The operator types hi and the return key; the oracle answers in plain
    text, and only to the prompt made of the context and the "User: "
    block. *)
Definition hi_terminal : terminal :=
  {| keys := list_ascii_of_string "hi" ++ [CR]; replies := [] |}.

Definition ok_reply : PlainOutput :=
  {| output_text := Some "ok"; model_dump_json := None; str_result := "ok" |}.

Definition hi_oracle (prompt : string) : result reply :=
  if prompt =? context demo_session ++ LF ++ "User: hi"
  then Ok (Plain ok_reply)
  else Raise ValueError.

Definition events_oracle (prompt : string) : result reply :=
  Ok (Action (request GET_EVENTS (Some "prod") None)).

Definition describe_oracle (prompt : string) : result reply :=
  Ok (Action (request DESCRIBE_POD None None)).

Definition describe_deployment_oracle (prompt : string) : result reply :=
  Ok (Action (request DESCRIBE_DEPLOYMENT None None)).

Definition stop_oracle (prompt : string) : result reply :=
  Ok (Action (request STOP None None)).

(** A host on which kubectl cannot be started, and one on which it runs. *)
Definition no_kubectl (args : list string) : result string :=
  Raise FileNotFoundError.

Definition kubectl_fails (args : list string) : result string :=
  Raise (CalledProcessError "Error from server (NotFound)").

(** ** Vocabulary of the further properties *)

(** The line buffer after the keys [ks], none of which commits the line. *)
Fixpoint type_keys (ks : list ascii) (buffer : list ascii) : list ascii :=
  match ks with
  | [] => buffer
  | ch :: rest =>
      if Ascii.eqb ch DEL then type_keys rest (removelast buffer)
      else if printable ch then type_keys rest (buffer ++ [ch])
      else type_keys rest buffer
  end.

(** Every character of the text is printable ASCII. *)
Definition printable_text (s : string) : bool :=
  forallb printable (list_ascii_of_string s).

(** The session points at a row of the working set that carries its
    namespace, pod and reason. *)
Definition on_row (all_pods : list failing_pod) (s : session) : Prop :=
  exists row,
    nth_error all_pods (current_idx s) = Some row
    /\ row_ns row = cur_ns s
    /\ row_pod row = cur_pod s
    /\ row_reason row = cur_reason s.

(** The context starts with the description of the selected pod. *)
Definition about_target (s : session) : Prop :=
  String.prefix (describe (cur_ns s) (cur_pod s) (cur_reason s)) (context s)
  = true.

(** The text is empty or starts with a character that is not white space. *)
Definition starts_clean (s : string) : bool :=
  match s with
  | EmptyString => true
  | String c _ => negb (Text.is_space c)
  end.

(** ** [init_k8s] and the main program *)

(** The module [kubernetes.config]: the two loaders. *)
Record Config : Type := {
  load_kube_config : result unit;
  load_incluster_config : result unit
}.

(** Lines 65-68; the bare [except] takes every exception. *)
Definition init_k8s (config : Config) : result unit :=
  match load_kube_config config with
  | Ok _ => Ok tt
  | Raise _ => load_incluster_config config
  end.

Record V1Namespace : Type := { ns_metadata : option V1ObjectMeta }.

(** [[item.metadata.name for item in ns_list.items]] *)
Fixpoint namespace_names (items : list V1Namespace) : result (list string) :=
  match items with
  | [] => Ok []
  | item :: rest =>
      m <- attr (ns_metadata item) ;;
      names <- namespace_names rest ;;
      Ok (meta_name m :: names)
  end.

Fixpoint drop_spaces (l : list Bullets.char) : list Bullets.char :=
  match l with
  | [] => []
  | c :: rest => if Bullets.is_space c then drop_spaces rest else l
  end.

(** [s.strip()] on a line of any text: the white space of Unicode is taken
    off both ends. *)
Definition strip_line (s : string) : string :=
  Bullets.unchars (rev (drop_spaces (rev (drop_spaces (Bullets.chars s))))).

(** How a run of the program stands: ended, left by an exception, in a
    session after the turns counted, waiting for a key, or back at the pod
    prompt after the rounds counted. *)
Inductive program_result : Type :=
| Ended (t : terminal)
| Raised (e : exn) (t : terminal)
| Running (s : session) (t : terminal)
| Blocked
| Prompting (t : terminal).

Section Main.

(** [os.environ.get("OPENAI_API_KEY")] *)
Variable api_key : option string.
Variable config : Config.
Variable client : Client.
(** [v1_ns.list_namespace()], the items of the list. *)
Variable list_namespace : CoreV1Api -> result (list V1Namespace).
Variable spawn : list string -> result string.
Variable agent_run : string -> result reply.
Variable int : string -> option Z.
Variable unicode_decimal : Bullets.char -> bool.

(** Lines 510-514: the sorted names, or nothing when anything fails. *)
Definition sorted_namespaces (v1_ns : CoreV1Api) : list string :=
  match (ns_list <- list_namespace v1_ns ;;
         names <- namespace_names ns_list ;;
         Ok (sorted names)) with
  | Ok namespaces => namespaces
  | Raise _ => []
  end.

(** Lines 522-539: the prompt for a namespace; [None] is all namespaces. *)
Fixpoint select_namespace (namespaces : list string) (lines : list string)
  : option string * list string :=
  match lines with
  | [] => (None, [])
  | line :: rest =>
      let choice := strip_line line in
      if choice =? "" then (None, rest)
      else
        match int choice with
        | None => select_namespace namespaces rest
        | Some idx =>
            if (idx =? 0)%Z then (None, rest)
            else if ((1 <=? idx) && (idx <=? Z.of_nat (length namespaces)))%Z
            then (Some (nth (Z.to_nat (idx - 1)) namespaces ""), rest)
            else select_namespace namespaces rest
        end
  end.

(** Lines 551-555 and 558-561: the prompt for a pod, until a line holds a
    number from 1 to the number of rows; [EOFError] is not handled here. *)
Fixpoint select_pod (failing_pods : list failing_pod) (lines : list string)
  : result failing_pod * list string :=
  match lines with
  | [] => (Raise EOFError, [])
  | line :: rest =>
      match int line with
      | None => select_pod failing_pods rest
      | Some choice =>
          if ((1 <=? choice) && (choice <=? Z.of_nat (length failing_pods)))%Z
          then match nth_error failing_pods (Z.to_nat (choice - 1)) with
               | Some row => (Ok row, rest)
               | None => (Raise IndexError, rest)
               end
          else select_pod failing_pods rest
      end
  end.

(** Lines 551-561: the loop around the prompt and the session.  The session
    runs inside the [try], so a [ValueError] that leaves it is taken for a
    line that is no number and the prompt comes again; [rounds] bounds these
    returns and [turns] the turns of a session. *)
Fixpoint debug_loop (rounds turns : nat) (failing_pods : list failing_pod)
  (t : terminal) : program_result :=
  match rounds with
  | O => Prompting t
  | S rounds' =>
      match select_pod failing_pods (replies t) with
      | (Raise e, rest) => Raised e {| keys := keys t; replies := rest |}
      | (Ok row, rest) =>
          match chat_loop client spawn agent_run int unicode_decimal
                  failing_pods turns
                  (initial_session (row_ns row) (row_pod row) (row_reason row)
                     failing_pods)
                  {| keys := keys t; replies := rest |} with
          | Exited t' => Ended t'
          | Crashed ValueError t' => debug_loop rounds' turns failing_pods t'
          | Crashed e t' => Raised e t'
          | Continue s t' => Running s t'
          | Waiting => Blocked
          end
      end
  end.

(** Lines 25-29 and 506-561. *)
Definition main (rounds turns : nat) (t : terminal) : program_result :=
  if negb (truthy api_key) then Raised ValueError t
  else
    match init_k8s config with
    | Raise e => Raised e t
    | Ok _ =>
        match new_CoreV1Api client with
        | Raise e => Raised e t
        | Ok v1_ns =>
            let namespaces := sorted_namespaces v1_ns in
            let (selected_ns, lines) :=
              match namespaces with
              | [] => (None, replies t)
              | _ :: _ => select_namespace namespaces (replies t)
              end in
            let t := {| keys := keys t; replies := lines |} in
            match get_failing_pods client selected_ns with
            | Raise e => Raised e t
            | Ok [] => Ended t
            | Ok (row :: rows) => debug_loop rounds turns (row :: rows) t
            end
        end
    end.

End Main.

(** A cluster with the one namespace prod, a key for the oracle, and an
    operator who answers 1 at the namespace prompt, then x and 1 at the pod
    prompt. *)
Definition demo_config : Config :=
  {| load_kube_config := Raise FileNotFoundError;
     load_incluster_config := Ok tt |}.

Definition demo_namespaces (v1_ns : CoreV1Api) : result (list V1Namespace) :=
  Ok [{| ns_metadata := Some (Demo.meta "prod" []) |}].

Definition answers_terminal : terminal :=
  {| keys := []; replies := ["1"; "x"; "1"] |}.

(** A host whose command runner refuses the arguments. *)
Definition refuses_arguments (args : list string) : result string :=
  Raise ValueError.

(** An operator who picks the first pod and asks why. *)
Definition events_terminal : terminal :=
  {| keys := (list_ascii_of_string "why" ++ [CR])%list; replies := ["1"] |}.

(** A command that only reads the cluster: kubectl with one of the verbs
    describe, get and logs. *)
Definition read_only (args : list string) : bool :=
  match args with
  | program :: verb :: _ =>
      (program =? "kubectl")
      && existsb (String.eqb verb) ["describe"; "get"; "logs"]
  | _ => false
  end.

(** A host that starts the read-only commands and no other program. *)
Definition read_only_host (spawn : list string -> result string)
  (args : list string) : result string :=
  if read_only args then spawn args else Raise FileNotFoundError.

(** Ascending code-point order, repetitions allowed. *)
Definition ascending (l : list string) : Prop :=
  StronglySorted (fun a b => str_le a b = true) l.

(** The session has the target and the cursor of [s] and a context that
    starts with the whole context of [s]. *)
Definition continues (s s' : session) : Prop :=
  cur_ns s' = cur_ns s /\ cur_pod s' = cur_pod s
  /\ cur_reason s' = cur_reason s /\ current_idx s' = current_idx s
  /\ exists block, context s' = context s ++ block.

(** * Theorems *)

(** ** Controller resolution *)

Lemma find_hd_filter {A : Type} (f : A -> bool) (l : list A) :
  find f l = hd_error (filter f l).
Proof.
  induction l as [| x l IH]; simpl; [reflexivity|].
  destruct (f x); [reflexivity | exact IH].
Qed.

Lemma is_controller_flagged (r : V1OwnerReference) :
  is_controller r = Spec.flagged r.
Proof.
  unfold is_controller, Spec.flagged.
  now destruct (ref_controller r) as [[|]|].
Qed.

Lemma is_controller_true (r : V1OwnerReference) :
  is_controller r = true <-> ref_controller r = Some true.
Proof.
  unfold is_controller.
  destruct (ref_controller r) as [[|]|]; split; congruence.
Qed.

Lemma select_controller_ref_spec (refs : list V1OwnerReference) :
  select_controller_ref refs = Spec.selected_owner refs.
Proof.
  unfold select_controller_ref, Spec.selected_owner.
  rewrite find_hd_filter.
  rewrite (filter_ext _ _ is_controller_flagged refs).
  destruct (filter Spec.flagged refs); reflexivity.
Qed.

Lemma deployment_owner_none (owners : list V1OwnerReference) :
  deployment_owner owners = None <->
  (forall r, In r owners -> ~ Spec.deployment_ref r).
Proof.
  unfold Spec.deployment_ref.
  induction owners as [| r owners IH]; simpl.
  - split; [intros _ r []| reflexivity].
  - destruct (is_controller r) eqn:Hc; simpl.
    + destruct (String.eqb_spec (ref_kind r) "Deployment") as [Hk|Hk].
      * split; [discriminate|]. intros H. exfalso.
        apply is_controller_true in Hc. apply (H r); auto.
      * rewrite IH. split; intros H r' Hin.
        -- destruct Hin as [<-|Hin]; [intros [_ ?]; contradiction| now apply H].
        -- apply H. now right.
    + rewrite IH. split; intros H r' Hin.
      * destruct Hin as [<-|Hin]; [|now apply H].
        intros [Hf _]. apply is_controller_true in Hf. congruence.
      * apply H. now right.
Qed.

Lemma deployment_owner_some (owners : list V1OwnerReference) (d : string) :
  deployment_owner owners = Some d ->
  exists r, In r owners /\ Spec.deployment_ref r /\ ref_name r = d.
Proof.
  unfold Spec.deployment_ref.
  induction owners as [| r owners IH]; simpl; [discriminate|].
  destruct (is_controller r) eqn:Hc; simpl.
  - destruct (String.eqb_spec (ref_kind r) "Deployment") as [Hk|Hk].
    + intros [= <-]. apply is_controller_true in Hc. exists r. auto.
    + intros H. destruct (IH H) as (r' & ? & ? & ?). exists r'. auto.
  - intros H. destruct (IH H) as (r' & ? & ? & ?). exists r'. auto.
Qed.

(** The outer handler turns every exception into [(None, None)]. *)
Lemma resolve_total (client : Client) (pod : V1Pod) :
  exists c, resolve_controller_for_pod client pod = Ok c.
Proof.
  unfold resolve_controller_for_pod.
  destruct (resolve_body client pod) as [c|e]; simpl; eauto.
Qed.

Section ReplicaSetOwner.

Variables (client : Client) (pod : V1Pod).
Variables (apps_v1 : AppsV1Api) (batch_v1 : BatchV1Api).
Variables (meta : V1ObjectMeta) (ref : V1OwnerReference).
Hypothesis Happs : new_AppsV1Api client = Ok apps_v1.
Hypothesis Hbatch : new_BatchV1Api client = Ok batch_v1.
Hypothesis Hmeta : metadata pod = Some meta.
Hypothesis Href : Spec.selected_owner (or_nil (owner_references meta)) = Some ref.
Hypothesis Hkind : ref_kind ref = "ReplicaSet".

Lemma resolve_replicaset_unfold :
  resolve_controller_for_pod client pod =
  Ok (match read_namespaced_replica_set apps_v1 (ref_name ref)
            (meta_namespace meta) with
      | Ok rs =>
          match rs_metadata rs with
          | Some rs_meta =>
              match deployment_owner (or_nil (owner_references rs_meta)) with
              | Some d => (Some "Deployment", Some d)
              | None => (Some "ReplicaSet", Some (ref_name ref))
              end
          | None => (Some "ReplicaSet", Some (ref_name ref))
          end
      | Raise _ => (Some "ReplicaSet", Some (ref_name ref))
      end).
Proof.
  unfold resolve_controller_for_pod, resolve_body.
  rewrite Happs, Hbatch, Hmeta. simpl.
  rewrite select_controller_ref_spec, Href, Hkind. simpl.
  destruct (read_namespaced_replica_set _ _ _) as [rs|e]; simpl; [|reflexivity].
  destruct (rs_metadata rs) as [rm|]; simpl; [|reflexivity].
  destruct (deployment_owner _); reflexivity.
Qed.

End ReplicaSetOwner.

(** C2.  For a pod whose selected owner reference (the controller-flagged
    one, else the first; none for an empty list) has kind ReplicaSet,
    resolution reads that ReplicaSet and returns (Deployment, d) for an owner
    of the ReplicaSet flagged as controller with kind Deployment and name d,
    (ReplicaSet, the original name) when there is no such owner or the
    lookup fails, (None, None) when the list of owners is empty or anything
    else raises; it never raises to its caller. *)
Theorem resolve_replicaset_to_deployment :
  forall (client : Client) (pod : V1Pod),
    (exists c, resolve_controller_for_pod client pod = Ok c)
    /\ (forall e, new_AppsV1Api client = Raise e ->
          resolve_controller_for_pod client pod = Ok (None, None))
    /\ (forall e, new_BatchV1Api client = Raise e ->
          resolve_controller_for_pod client pod = Ok (None, None))
    /\ (metadata pod = None ->
          resolve_controller_for_pod client pod = Ok (None, None))
    /\ (forall apps_v1 batch_v1 meta,
          new_AppsV1Api client = Ok apps_v1 ->
          new_BatchV1Api client = Ok batch_v1 ->
          metadata pod = Some meta ->
          (Spec.selected_owner (or_nil (owner_references meta)) = None ->
             or_nil (owner_references meta) = []
             /\ resolve_controller_for_pod client pod = Ok (None, None))
          /\ (forall ref,
                Spec.selected_owner (or_nil (owner_references meta)) = Some ref ->
                ref_kind ref = "ReplicaSet" ->
                let original := (Some "ReplicaSet", Some (ref_name ref)) in
                let lookup := read_namespaced_replica_set apps_v1 (ref_name ref)
                                (meta_namespace meta) in
                (forall e, lookup = Raise e ->
                   resolve_controller_for_pod client pod = Ok original)
                /\ (forall rs, lookup = Ok rs -> rs_metadata rs = None ->
                      resolve_controller_for_pod client pod = Ok original)
                /\ (forall rs rs_meta, lookup = Ok rs ->
                      rs_metadata rs = Some rs_meta ->
                      let owners := or_nil (owner_references rs_meta) in
                      ((forall r, In r owners -> ~ Spec.deployment_ref r) ->
                         resolve_controller_for_pod client pod = Ok original)
                      /\ ((exists r, In r owners /\ Spec.deployment_ref r) ->
                            exists r, In r owners /\ Spec.deployment_ref r
                              /\ resolve_controller_for_pod client pod
                                 = Ok (Some "Deployment", Some (ref_name r)))))).
Proof.
  intros client pod. split; [apply resolve_total|].
  split; [|split; [|split]].
  - intros e He. unfold resolve_controller_for_pod, resolve_body.
    now rewrite He.
  - intros e He. unfold resolve_controller_for_pod, resolve_body.
    rewrite He. now destruct (new_AppsV1Api client).
  - intros Hm. unfold resolve_controller_for_pod, resolve_body.
    rewrite Hm.
    now destruct (new_AppsV1Api client), (new_BatchV1Api client).
  - intros apps_v1 batch_v1 meta Happs Hbatch Hmeta. split.
    + intros Hsel. split.
      * unfold Spec.selected_owner in Hsel.
        destruct (filter Spec.flagged _); [|discriminate].
        destruct (or_nil _); [reflexivity|discriminate].
      * unfold resolve_controller_for_pod, resolve_body.
        rewrite Happs, Hbatch, Hmeta. simpl.
        now rewrite select_controller_ref_spec, Hsel.
    + intros ref Href Hkind original lookup.
      pose proof (@resolve_replicaset_unfold client pod _ _ _ _
                    Happs Hbatch Hmeta Href Hkind) as E.
      fold lookup in E. rewrite E. clear E.
      split; [|split].
      * intros e ->. reflexivity.
      * intros rs -> ->. reflexivity.
      * intros rs rs_meta -> -> owners. fold owners. split.
        -- intros Hnone. apply deployment_owner_none in Hnone.
           now rewrite Hnone.
        -- intros Hex.
           destruct (deployment_owner owners) as [d|] eqn:Hd.
           ++ destruct (deployment_owner_some _ Hd) as (r & Hin & Hr & <-).
              exists r. auto.
           ++ exfalso. destruct Hex as (r & Hin & Hr).
              rewrite deployment_owner_none in Hd. now apply (Hd r).
Qed.

(** The pods of the small cluster: the ReplicaSet of api-1 belongs to the
    Deployment api; web-0 belongs to a StatefulSet; the lookup of the Job of
    migrate-x fails and the Job is returned all the same. *)
Example resolve_demo_controllers :
  resolve_controller_for_pod Demo.client Demo.crashing
  = Ok (Some "Deployment", Some "api")
  /\ resolve_controller_for_pod Demo.client Demo.sidecars
     = Ok (Some "StatefulSet", Some "web")
  /\ resolve_controller_for_pod Demo.client Demo.finished
     = Ok (Some "Job", Some "migrate").
Proof. repeat split. Qed.

(** ** The scan for failing pods *)

Lemma str_le_false_lt (x y : string) :
  str_le x y = false -> String_as_OT.lt y x.
Proof.
  unfold str_le.
  destruct (String_as_OT.compare_spec x y); try discriminate. auto.
Qed.

Lemma str_le_true_cases (x y : string) :
  str_le x y = true -> x = y \/ String_as_OT.lt x y.
Proof.
  unfold str_le.
  destruct (String_as_OT.compare_spec x y); try discriminate; auto.
Qed.

Lemma insert_sorted_In (x y : string) (l : list string) :
  In y (insert_sorted x l) <-> y = x \/ In y l.
Proof.
  induction l as [| z l IH]; simpl.
  - intuition.
  - destruct (str_le x z); simpl; [intuition|].
    rewrite IH. intuition.
Qed.


Lemma sorted_In (x : string) (l : list string) : In x (sorted l) <-> In x l.
Proof.
  unfold sorted. induction l as [| y l IH]; simpl; [tauto|].
  rewrite insert_sorted_In, IH. intuition.
Qed.




Lemma truthy_or_str (o : option string) :
  truthy o = true -> o = Some (or_str o "") /\ nonempty (or_str o "") = true.
Proof.
  destruct o as [[| c s]|]; simpl; try discriminate. auto.
Qed.






Lemma is_ready_not_ready (st : V1PodStatus) :
  is_ready (Spec.ready_condition st) = false <-> Spec.not_ready st.
Proof.
  unfold Spec.not_ready, is_ready.
  destruct (Spec.ready_condition st) as [c|].
  - destruct (String.eqb_spec (cond_status c) "True") as [E|E].
    + split; [discriminate|]. intros H. exfalso. now apply (H c).
    + split; [|reflexivity]. intros _ c' [= <-]. exact E.
  - split; [|reflexivity]. intros _ c' [=].
Qed.


Lemma NoDup_map_eq {A B : Type} (f : A -> B) (l : list A) (a b : A) :
  NoDup (map f l) -> In a l -> In b l -> f a = f b -> a = b.
Proof.
  induction l as [| x l IH]; simpl; [intros _ []|].
  intros Hn Ha Hb E. inversion_clear Hn as [| ? ? Hx Hl].
  destruct Ha as [->|Ha], Hb as [->|Hb]; auto.
  - exfalso. apply Hx. rewrite E. now apply in_map.
  - exfalso. apply Hx. rewrite <- E. now apply in_map.
Qed.








(** ** The switch signal *)

Lemma read_keys_switch (typed rest : list ascii) :
  forallb uncommitted typed = true ->
  forall buffer,
    read_keys (typed ++ CTRL_N :: rest) buffer = Some ("", true, rest).
Proof.
  induction typed as [| ch typed IH]; simpl; intros Hu buffer.
  - reflexivity.
  - apply andb_prop in Hu. destruct Hu as [Hch Hu].
    unfold uncommitted in Hch. apply negb_true_iff in Hch.
    apply orb_false_elim in Hch. destruct Hch as [Hch Hnl].
    apply orb_false_elim in Hch. destruct Hch as [Hn Hcr].
    rewrite Hn, Hcr, Hnl. simpl.
    destruct (Ascii.eqb ch DEL); [apply IH, Hu|].
    destruct (printable ch); apply IH, Hu.
Qed.

Lemma nth_error_mod {A : Type} (l : list A) (i : nat) :
  0 < length l -> exists x, nth_error l (i mod length l) = Some x.
Proof.
  intros Hl.
  destruct (nth_error l (i mod length l)) as [x|] eqn:E; [eauto|].
  apply nth_error_None in E.
  pose proof (Nat.mod_upper_bound i (length l)). lia.
Qed.

(** C3.  While the session awaits input, CTRL+n after any keys that did not
    commit the line makes the reader return the switch result with empty
    text; the turn then moves the cursor from i to (i+1) mod n, the target
    becomes the namespace, pod and reason of the row at that place, and the
    context becomes the one sentence that describes that row, "Pod <pod> in
    namespace <ns> is failing: <reason>", whatever the context held
    before. *)
Theorem switch_signal_advances_cursor :
  forall (client : Client) (spawn : list string -> result string)
         (agent_run : string -> result reply) (int : string -> option Z)
         (unicode_decimal : Bullets.char -> bool)
         (all_pods : list failing_pod) (s : session)
         (typed rest : list ascii) (lines : list string),
    0 < length all_pods ->
    forallb uncommitted typed = true ->
    read_user_input_or_ctrl_n (typed ++ CTRL_N :: rest) = Some ("", true, rest)
    /\ exists ns pod reason ctrl_kind ctrl_name,
         nth_error all_pods ((current_idx s + 1) mod length all_pods)
         = Some (ns, pod, reason, ctrl_kind, ctrl_name)
         /\ chat_iteration client spawn agent_run int unicode_decimal all_pods s
              {| keys := typed ++ CTRL_N :: rest; replies := lines |}
            = Continue
                {| cur_ns := ns;
                   cur_pod := pod;
                   cur_reason := reason;
                   current_idx := (current_idx s + 1) mod length all_pods;
                   context := "Pod " ++ pod ++ " in namespace " ++ ns
                              ++ " is failing: " ++ reason |}
                {| keys := rest; replies := lines |}.
Proof.
  intros client spawn agent_run int unicode_decimal all_pods s typed rest lines
         Hn Hu.
  pose proof (read_keys_switch typed rest Hu []) as Hread.
  split; [exact Hread|].
  destruct (nth_error_mod all_pods (current_idx s + 1) Hn)
    as [[[[[ns pod] reason] ctrl_kind] ctrl_name] Hrow].
  exists ns, pod, reason, ctrl_kind, ctrl_name. split; [exact Hrow|].
  unfold chat_iteration, read_user_input_or_ctrl_n. simpl keys.
  rewrite Hread. cbv beta iota. unfold switch_next.
  destruct (length all_pods) as [| n] eqn:El; [lia|].
  cbv zeta. rewrite Hrow. reflexivity.
Qed.

(** On the small cluster: the operator has typed "wh" on api-1 (row 0 of 2)
    and presses CTRL+n; the two letters are dropped and the session is on
    web-0 with a context that holds the description of web-0 alone. *)
Lemma switch_signal_demo :
  read_user_input_or_ctrl_n demo_keys
  = Some ("", true, list_ascii_of_string "rest")
  /\ chat_iteration Demo.client (fun _ => Ok "") (fun _ => Raise ValueError)
       demo_int no_unicode_decimal Demo.rows demo_session demo_terminal
     = Continue
         {| cur_ns := "prod"; cur_pod := "web-0"; cur_reason := "Pending";
            current_idx := 1;
            context := "Pod web-0 in namespace prod is failing: Pending" |}
         {| keys := list_ascii_of_string "rest"; replies := [] |}.
Proof.
  destruct (@switch_signal_advances_cursor Demo.client (fun _ => Ok "")
              (fun _ => Raise ValueError) demo_int no_unicode_decimal
              Demo.rows demo_session
              (list_ascii_of_string "wh") (list_ascii_of_string "rest") []
              (Nat.lt_0_succ 1) eq_refl)
    as [Hread (ns & pod & reason & ctrl_kind & ctrl_name & Hrow & Hturn)].
  split; [exact Hread|].
  injection Hrow as <- <- <- _ _. exact Hturn.
Defined.

(** ** Dispatch of the actions *)

(** C4 fails on the code.  Only a LOGS request takes the name and the
    namespace of the selected target for its absent fields.  A DESCRIBE_POD
    or DESCRIBE_DEPLOYMENT request is given no default: its fields go into
    the argument vector as they are, so with an absent namespace or name the
    command is refused with [TypeError] before any program is started, on
    every host, and the exception ends the turn and the session.  On the
    small cluster the session is on api-1 in prod and the oracle asks to
    describe the deployment without naming it. *)
Theorem describe_without_fields_raises :
  forall (client : Client) (spawn : list string -> result string)
         (agent_run : string -> result reply) (int : string -> option Z)
         (unicode_decimal : Bullets.char -> bool)
         (s : session) (t : terminal) (ns name : option string) (u : string),
    (exists container t',
       action_query client int (request LOGS None None) s t
       = (Some ([Some "kubectl"; Some "logs"; Some (cur_pod s); Some "-n";
                 Some (cur_ns s); Some "--tail=100"] ++ container)%list, t'))
    /\ action_query client int (request DESCRIBE_POD ns name) s t
       = (Some [Some "kubectl"; Some "describe"; Some "pod"; name;
                Some "-n"; ns], t)
    /\ action_query client int (request DESCRIBE_DEPLOYMENT ns name) s t
       = (Some [Some "kubectl"; Some "describe"; Some "deployment"; name;
                Some "-n"; ns], t)
    /\ (forall ty,
          ty = DESCRIBE_POD \/ ty = DESCRIBE_DEPLOYMENT ->
          ns = None \/ name = None ->
          dispatch client spawn int (request ty ns name) s t
          = (Raise TypeError, t)
          /\ (agent_run (context s ++ LF ++ "User: " ++ u)
              = Ok (Action (request ty ns name)) ->
              oracle_turn client spawn agent_run int unicode_decimal u s t
              = Crashed TypeError t))
    /\ chat_iteration Demo.client spawn describe_deployment_oracle demo_int
         no_unicode_decimal Demo.rows demo_session hi_terminal
       = Crashed TypeError {| keys := []; replies := [] |}.
Proof.
  intros client spawn agent_run int unicode_decimal s t ns name u.
  split; [|split; [reflexivity|split; [reflexivity|split; [|reflexivity]]]].
  - unfold action_query. simpl.
    destruct (choose_container client int (cur_pod s) (cur_ns s) t)
      as [selected t'].
    unfold logs_cmd. eexists _, t'. reflexivity.
  - intros ty Hty Habsent.
    assert (Hd : dispatch client spawn int (request ty ns name) s t
                 = (Raise TypeError, t)).
    { unfold dispatch, action_query, run_cmd, check_output.
      destruct Hty as [-> | ->]; destruct Habsent as [-> | ->]; simpl;
        try reflexivity; now destruct name. }
    split; [exact Hd|].
    intros Hrun. unfold oracle_turn. rewrite Hrun, Hd.
    now destruct Hty as [-> | ->].
Qed.

(** C5.  Only LOGS puts the namespace and the name of the selected target in
    the place of omitted fields (a field that is given is kept);
    DESCRIBE_POD, DESCRIBE_DEPLOYMENT, GET_CONFIGMAP and GET_EVENTS run a
    command built from the fields of the request alone, the same whatever
    the selected target. *)
Theorem substitution_on_logs_only :
  forall (client : Client) (spawn : list string -> result string)
         (int : string -> option Z)
         (s : session) (t : terminal) (ns name : option string),
    (exists selected t',
       dispatch client spawn int (request LOGS ns name) s t
       = (run_cmd spawn
            (logs_cmd (or_str name (cur_pod s)) (or_str ns (cur_ns s)) selected),
          t'))
    /\ or_str None (cur_pod s) = cur_pod s
    /\ or_str None (cur_ns s) = cur_ns s
    /\ (forall given, nonempty given = true ->
          or_str (Some given) (cur_pod s) = given
          /\ or_str (Some given) (cur_ns s) = given)
    /\ dispatch client spawn int (request DESCRIBE_POD ns name) s t
       = (run_cmd spawn [Some "kubectl"; Some "describe"; Some "pod"; name;
                         Some "-n"; ns], t)
    /\ dispatch client spawn int (request DESCRIBE_DEPLOYMENT ns name) s t
       = (run_cmd spawn [Some "kubectl"; Some "describe"; Some "deployment";
                         name; Some "-n"; ns], t)
    /\ dispatch client spawn int (request GET_CONFIGMAP ns name) s t
       = (run_cmd spawn [Some "kubectl"; Some "get"; Some "configmap"; name;
                         Some "-n"; ns; Some "-o"; Some "yaml"], t)
    /\ dispatch client spawn int (request GET_EVENTS ns name) s t
       = (run_cmd spawn [Some "kubectl"; Some "get"; Some "events";
                         Some "-n"; ns], t)
    /\ forall ty s',
         ty <> LOGS ->
         dispatch client spawn int (request ty ns name) s t
         = dispatch client spawn int (request ty ns name) s' t.
Proof.
  intros client spawn int s t ns name.
  split; [|repeat split].
  - unfold dispatch, action_query. simpl.
    destruct (choose_container client int (or_str name (cur_pod s))
                (or_str ns (cur_ns s)) t) as [selected t'] eqn:E.
    exists selected, t'. reflexivity.
  - destruct given; [discriminate | reflexivity].
  - destruct given; [discriminate | reflexivity].
  - intros ty s' Hty. destruct ty; try reflexivity. congruence.
Qed.

(** C10.  The command of every LOGS request holds the argument
    "--tail=100", with or without a container. *)
Theorem logs_always_tail_100 :
  forall (client : Client) (spawn : list string -> result string)
         (int : string -> option Z)
         (s : session) (t : terminal) (ns name : option string),
    exists cmd t',
      action_query client int (request LOGS ns name) s t = (Some cmd, t')
      /\ dispatch client spawn int (request LOGS ns name) s t
         = (run_cmd spawn cmd, t')
      /\ nth_error cmd 5 = Some (Some "--tail=100")
      /\ In (Some "--tail=100") cmd.
Proof.
  intros client spawn int s t ns name.
  unfold dispatch, action_query. simpl.
  destruct (choose_container client int (or_str name (cur_pod s))
              (or_str ns (cur_ns s)) t) as [selected t'].
  eexists _, t'. split; [reflexivity|]. split; [reflexivity|].
  split; [reflexivity|]. unfold logs_cmd. simpl. auto 10.
Qed.

(** ** The container of a LOGS request *)

Lemma filter_twice {A : Type} (p q : A -> bool) (l : list A) :
  filter p (filter q l) = filter (fun x => q x && p x) l.
Proof.
  induction l as [| x l IH]; simpl; [reflexivity|].
  destruct (q x); simpl; [destruct (p x)|]; now rewrite IH.
Qed.

Lemma dedup_first_filter (p : string -> bool) (l : list string) :
  Spec.dedup_first (filter p l) = filter p (Spec.dedup_first l).
Proof.
  induction l as [| x l IH]; simpl; [reflexivity|].
  destruct (p x) eqn:Hp; simpl.
  - rewrite IH, !filter_twice. f_equal.
    apply filter_ext. intros y. apply andb_comm.
  - rewrite IH, filter_twice. apply filter_ext. intros y.
    destruct (String.eqb_spec y x) as [->|_]; simpl; [now rewrite Hp | reflexivity].
Qed.

Lemma fold_dict_insert (ks d : list string) :
  fold_left dict_insert ks d
  = (d ++ Spec.dedup_first
            (filter (fun k => negb (existsb (String.eqb k) d)) ks))%list.
Proof.
  revert d. induction ks as [| k ks IH]; intros d; simpl.
  - now rewrite app_nil_r.
  - unfold dict_insert at 2.
    destruct (existsb (String.eqb k) d) eqn:Hk; simpl.
    + apply IH.
    + rewrite IH, <- app_assoc. simpl. f_equal. f_equal.
      rewrite <- dedup_first_filter, filter_twice. f_equal.
      apply filter_ext. intros y.
      rewrite existsb_app. simpl. rewrite orb_false_r, negb_orb.
      reflexivity.
Qed.

(** [dict.fromkeys] keeps the first occurrence of every name. *)
Lemma dict_fromkeys_dedup_first (ks : list string) :
  dict_fromkeys ks = Spec.dedup_first ks.
Proof.
  unfold dict_fromkeys. rewrite fold_dict_insert. simpl.
  f_equal. induction ks as [| k ks IH]; simpl; congruence.
Qed.

Lemma dedup_first_In (x : string) (l : list string) :
  In x (Spec.dedup_first l) <-> In x l.
Proof.
  induction l as [| y l IH]; simpl; [tauto|].
  rewrite filter_In, IH.
  destruct (String.eqb_spec x y) as [->|Hne]; simpl; [tauto|].
  intuition congruence.
Qed.

Lemma dedup_first_NoDup (l : list string) : NoDup (Spec.dedup_first l).
Proof.
  induction l as [| y l IH]; simpl; constructor.
  - rewrite filter_In. rewrite String.eqb_refl. simpl. intros [_ H]. discriminate.
  - now apply NoDup_filter.
Qed.

Lemma names_of_nonempty (cs : option (list V1Container)) (x : string) :
  In x (names_of cs) -> nonempty x = true.
Proof.
  unfold names_of. rewrite in_flat_map. intros (c & _ & Hx).
  destruct (container_name c) as [[| a n]|]; simpl in Hx; try contradiction.
  destruct Hx as [<-|[]]. reflexivity.
Qed.

Lemma enumerate_nonempty (pod_obj : V1Pod) (x : string) :
  In x (enumerate_container_names pod_obj) -> nonempty x = true.
Proof.
  unfold enumerate_container_names.
  destruct (spec pod_obj) as [sp|]; [|intros []].
  rewrite in_app_iff. intros [H|H]; eapply names_of_nonempty; eassumption.
Qed.

Lemma names_of_spec (cs : option (list V1Container)) :
  names_of cs = Spec.names cs.
Proof.
  unfold names_of, Spec.names. apply flat_map_ext. intros c.
  now destruct (container_name c) as [[| a n]|].
Qed.

(** The names the source collects are the container names of the pod. *)
Lemma enumerate_container_names_spec (pod_obj : V1Pod) :
  enumerate_container_names pod_obj = Spec.container_names pod_obj.
Proof.
  unfold enumerate_container_names, Spec.container_names.
  destruct (spec pod_obj) as [sp|]; [|reflexivity].
  now rewrite !names_of_spec.
Qed.

Lemma logs_cmd_selected (target_pod target_namespace c : string) :
  nonempty c = true ->
  logs_cmd target_pod target_namespace (Some c)
  = (logs_base target_pod target_namespace ++ [Some "-c"; Some c])%list.
Proof.
  intros Hc. unfold logs_cmd, logs_base. simpl. now rewrite Hc.
Qed.

Section SelectLoop.

Variable int : string -> option Z.
Variable names : list string.

Lemma select_loop_rejected (lines : list string) :
  forallb (rejected int names) lines = true ->
  select_loop int names lines = (Raise EOFError, []).
Proof.
  induction lines as [| line lines IH]; simpl; [reflexivity|].
  intros H. apply andb_prop in H. destruct H as [Hr H].
  unfold rejected, accepted in Hr.
  destruct (int line) as [k|]; [|now apply IH].
  apply negb_true_iff in Hr.
  replace ((0 <=? k - 1) && (k - 1 <? Z.of_nat (length names)))%Z
    with ((1 <=? k) && (k <=? Z.of_nat (length names)))%Z
    by (destruct (Z.leb_spec 1 k), (Z.leb_spec k (Z.of_nat (length names))),
          (Z.leb_spec 0 (k - 1)), (Z.ltb_spec (k - 1) (Z.of_nat (length names)));
        simpl; try reflexivity; lia).
  rewrite Hr. now apply IH.
Qed.

Lemma select_loop_accepted (skipped : list string) (line : string) (k : Z)
  (rest : list string) :
  forallb (rejected int names) skipped = true ->
  int line = Some k ->
  (1 <= k <= Z.of_nat (length names))%Z ->
  select_loop int names (skipped ++ line :: rest)
  = (Ok (nth (Z.to_nat (k - 1)) names ""), rest).
Proof.
  intros Hs Hk Hrange.
  induction skipped as [| l skipped IH]; simpl.
  - rewrite Hk.
    destruct (Z.leb_spec 0 (k - 1)); [|lia].
    destruct (Z.ltb_spec (k - 1) (Z.of_nat (length names))); [|lia].
    reflexivity.
  - simpl in Hs. apply andb_prop in Hs. destruct Hs as [Hr Hs].
    unfold rejected, accepted in Hr.
    destruct (int l) as [j|]; [|now apply IH].
    apply negb_true_iff in Hr.
    replace ((0 <=? j - 1) && (j - 1 <? Z.of_nat (length names)))%Z
      with ((1 <=? j) && (j <=? Z.of_nat (length names)))%Z
      by (destruct (Z.leb_spec 1 j), (Z.leb_spec j (Z.of_nat (length names))),
            (Z.leb_spec 0 (j - 1)), (Z.ltb_spec (j - 1) (Z.of_nat (length names)));
          simpl; try reflexivity; lia).
    rewrite Hr. now apply IH.
Qed.

End SelectLoop.

Section LogsQuery.

Variables (client : Client) (int : string -> option Z).
Variables (s : session) (t : terminal) (ns name : option string).

Lemma logs_query_unfold :
  action_query client int (request LOGS ns name) s t
  = (Some (logs_cmd (or_str name (cur_pod s)) (or_str ns (cur_ns s))
             (fst (choose_container client int (or_str name (cur_pod s))
                     (or_str ns (cur_ns s)) t))),
     snd (choose_container client int (or_str name (cur_pod s))
            (or_str ns (cur_ns s)) t)).
Proof.
  unfold action_query. simpl.
  now destruct (choose_container client int _ _ t).
Qed.

End LogsQuery.

(** The claim of C7 fails when the input ends at the prompt.  web-0 has the
    three names init, web and proxy; the operator answers two lines that are
    refused and the input ends: no container is selected, and the query is
    issued all the same, without a container. *)
Lemma logs_issued_without_selection :
  Spec.dedup_first (Spec.container_names Demo.sidecars)
  = ["init"; "web"; "proxy"]
  /\ action_query Demo.client demo_int (request LOGS None None) sidecar_session
       {| keys := []; replies := ["web"; "7"] |}
     = (Some [Some "kubectl"; Some "logs"; Some "web-0"; Some "-n"; Some "prod";
              Some "--tail=100"],
        {| keys := []; replies := [] |})
  /\ dispatch Demo.client (fun args => Ok (join " " args)) demo_int
       (request LOGS None None) sidecar_session
       {| keys := []; replies := ["web"; "7"] |}
     = (Ok "kubectl logs web-0 -n prod --tail=100",
        {| keys := []; replies := [] |}).
Proof. repeat split. Qed.

(** C7, amended.  For a LOGS request the names of the init containers and
    then of the containers of the target pod are taken in that order, each
    kept at its first occurrence.  With more than one name, the operator is
    asked: lines that are not a number from 1 to the number of names are
    asked again, and the first that is one selects the name at that place,
    with which the command is run; when the input ends first, no container
    is selected and the command is run without one.  With one name it is
    taken without reading a line.  When the enumeration fails, or finds no
    name, the command names no container. *)
Theorem logs_container_selection :
  forall (client : Client) (int : string -> option Z)
         (s : session) (t : terminal) (ns name : option string),
    let target_pod := or_str name (cur_pod s) in
    let target_namespace := or_str ns (cur_ns s) in
    let base := logs_base target_pod target_namespace in
    let query := action_query client int (request LOGS ns name) s t in
    (forall e, new_CoreV1Api client = Raise e -> query = (Some base, t))
    /\ (forall v1 e,
          new_CoreV1Api client = Ok v1 ->
          read_namespaced_pod v1 target_pod target_namespace = Raise e ->
          query = (Some base, t))
    /\ (forall v1 pod_obj,
          new_CoreV1Api client = Ok v1 ->
          read_namespaced_pod v1 target_pod target_namespace = Ok pod_obj ->
          let names := Spec.dedup_first (Spec.container_names pod_obj) in
          (names = [] -> query = (Some base, t))
          /\ (forall c, names = [c] ->
                query = (Some (base ++ [Some "-c"; Some c])%list, t))
          /\ (1 < length names ->
              (forall skipped line k rest,
                 replies t = (skipped ++ line :: rest)%list ->
                 forallb (rejected int names) skipped = true ->
                 int line = Some k ->
                 (1 <= k <= Z.of_nat (length names))%Z ->
                 In (nth (Z.to_nat (k - 1)) names "") names
                 /\ query
                    = (Some (base ++ [Some "-c";
                                      Some (nth (Z.to_nat (k - 1)) names "")])%list,
                       {| keys := keys t; replies := rest |}))
              /\ (forallb (rejected int names) (replies t) = true ->
                  query = (Some base, {| keys := keys t; replies := [] |})))).
Proof.
  intros client int s t ns name target_pod target_namespace base query.
  unfold query. rewrite logs_query_unfold.
  fold target_pod target_namespace.
  unfold choose_container.
  split; [|split].
  - intros e ->. reflexivity.
  - intros v1 e -> ->. reflexivity.
  - intros v1 pod_obj Hv1 Hread.
    rewrite Hv1, Hread, dict_fromkeys_dedup_first,
      enumerate_container_names_spec.
    set (names := Spec.dedup_first (Spec.container_names pod_obj)).
    assert (Hne : forall c, In c names -> nonempty c = true).
    { intros c Hc. unfold names in Hc. rewrite dedup_first_In in Hc.
      rewrite <- enumerate_container_names_spec in Hc.
      now apply enumerate_nonempty in Hc. }
    split; [|split].
    + intros ->. reflexivity.
    + intros c Hc. rewrite Hc. simpl.
      rewrite logs_cmd_selected; [reflexivity|].
      apply Hne. rewrite Hc. now left.
    + intros Hlen.
      assert (Hltb : (1 <? length names)%nat = true) by now apply Nat.ltb_lt.
      rewrite Hltb. split.
      * intros skipped line k rest Hrep Hskip Hk Hrange.
        assert (Hin : In (nth (Z.to_nat (k - 1)) names "") names)
          by (apply nth_In; lia).
        split; [exact Hin|].
        rewrite Hrep, (select_loop_accepted int names skipped line rest Hskip Hk Hrange).
        simpl. rewrite logs_cmd_selected; [reflexivity | now apply Hne].
      * intros Hrej. rewrite (select_loop_rejected int names _ Hrej).
        reflexivity.
Qed.

(** web-0 has the names init, web and proxy: the operator is asked, two
    lines are refused, and "2" selects web. *)
Example logs_three_containers :
  action_query Demo.client demo_int (request LOGS None None) sidecar_session
    {| keys := []; replies := ["web"; "7"; "2"; "later"] |}
  = (Some [Some "kubectl"; Some "logs"; Some "web-0"; Some "-n"; Some "prod";
           Some "--tail=100"; Some "-c"; Some "web"],
     {| keys := []; replies := ["later"] |}).
Proof. reflexivity. Qed.

(** api-1 has one container: no line is read. *)
Example logs_one_container :
  action_query Demo.client demo_int (request LOGS None None) demo_session
    {| keys := []; replies := ["2"] |}
  = (Some [Some "kubectl"; Some "logs"; Some "api-1"; Some "-n"; Some "prod";
           Some "--tail=100"; Some "-c"; Some "app"],
     {| keys := []; replies := ["2"] |}).
Proof. reflexivity. Qed.

(** ** The user utterance and the context *)

Section Turn.

Variables (client : Client) (spawn : list string -> result string).
Variables (int : string -> option Z) (unicode_decimal : Bullets.char -> bool).
Variable all_pods : list failing_pod.

Lemma chat_iteration_ordinary (agent_run : string -> result reply)
  (s : session) (t : terminal) (typed : string) (rest : list ascii) :
  read_user_input_or_ctrl_n (keys t) = Some (typed, false, rest) ->
  ordinary (Text.strip typed) = true ->
  chat_iteration client spawn agent_run int unicode_decimal all_pods s t
  = oracle_turn client spawn agent_run int unicode_decimal (Text.strip typed) s
      {| keys := rest; replies := replies t |}.
Proof.
  intros Hread Hord. unfold chat_iteration. rewrite Hread. cbv beta iota zeta.
  unfold ordinary in Hord. apply andb_prop in Hord. destruct Hord as [He Hs].
  apply negb_true_iff in He. apply negb_true_iff in Hs.
  now rewrite He, Hs.
Qed.

End Turn.

(** The claim of C6 fails: the operator types hi, the oracle is asked the
    context followed by the "User: " block and answers ok; the context after
    the turn is the old one followed by the model response alone, and the
    utterance is nowhere in it. *)
Lemma utterance_not_in_context :
  exists s',
    chat_iteration Demo.client no_kubectl hi_oracle demo_int no_unicode_decimal
      Demo.rows demo_session hi_terminal
    = Continue s' {| keys := []; replies := [] |}
    /\ context s'
       = context demo_session ++ LF ++ LF ++ "# Model Response" ++ LF ++ "ok" ++ LF
    /\ contains "User: hi" (context s') = false
    /\ contains "hi" (context s') = false.
Proof.
  eexists. split; [reflexivity|]. split; [reflexivity|].
  split; reflexivity.
Qed.

(** C6, amended.  For text that is neither an exit keyword nor a switch
    command, the turn asks the oracle the context followed by the block
    "User: " + text, and the turn depends on the oracle at that prompt only.
    The block is not added to the context.  When the call fails the session
    is left exactly as it was.  Otherwise the context is the one before
    followed by the single block of the reply: the model response, the final
    analysis, or the result of the action, whose command may also end the
    turn with an exception; a STOP request ends the session. *)
Theorem utterance_sent_not_appended :
  forall (client : Client) (spawn : list string -> result string)
         (agent_run : string -> result reply) (int : string -> option Z)
         (unicode_decimal : Bullets.char -> bool)
         (all_pods : list failing_pod) (s : session) (t : terminal)
         (typed : string) (rest : list ascii),
    read_user_input_or_ctrl_n (keys t) = Some (typed, false, rest) ->
    ordinary (Text.strip typed) = true ->
    let prompt := context s ++ LF ++ "User: " ++ Text.strip typed in
    let t1 := {| keys := rest; replies := replies t |} in
    let turn :=
      chat_iteration client spawn agent_run int unicode_decimal all_pods s t in
    let extended (block : string) :=
      {| cur_ns := cur_ns s; cur_pod := cur_pod s; cur_reason := cur_reason s;
         current_idx := current_idx s; context := context s ++ block |} in
    (forall agent_run',
       agent_run' prompt = agent_run prompt ->
       chat_iteration client spawn agent_run' int unicode_decimal all_pods s t
       = turn)
    /\ (forall e, agent_run prompt = Raise e -> turn = Continue s t1)
    /\ (forall o,
          agent_run prompt = Ok (Plain o) ->
          exists text,
            turn
            = Continue
                (extended (LF ++ LF ++ "# Model Response" ++ LF ++ text ++ LF))
                t1
            /\ (forall given,
                  output_text o = Some given -> nonempty given = true ->
                  text = given))
    /\ (forall f,
          agent_run prompt = Ok (Final f) ->
          turn
          = Continue
              (extended
                 (LF ++ LF ++ "# Final Analysis" ++ LF
                  ++ "Root Cause: " ++ root_cause f ++ LF
                  ++ "Remediation:" ++ LF
                  ++ Bullets._format_bullets unicode_decimal (remediation f)
                  ++ LF))
              t1)
    /\ (forall r,
          agent_run prompt = Ok (Action r) -> req_type r = STOP ->
          turn = Exited t1)
    /\ (forall r output t2,
          agent_run prompt = Ok (Action r) -> req_type r <> STOP ->
          dispatch client spawn int r s t1 = (Ok output, t2) ->
          turn
          = Continue
              (extended
                 (LF ++ LF ++ "# Result of " ++ type_name (req_type r) ++ " ("
                  ++ Text.show (req_namespace r) ++ "/"
                  ++ Text.show (req_name r) ++ ")" ++ LF ++ output ++ LF))
              t2)
    /\ (forall r e t2,
          agent_run prompt = Ok (Action r) -> req_type r <> STOP ->
          dispatch client spawn int r s t1 = (Raise e, t2) ->
          turn = Crashed e t2).
Proof.
  intros client spawn agent_run int unicode_decimal all_pods s t typed rest
         Hread Hord prompt t1 turn extended.
  assert (Hturn : turn
                  = oracle_turn client spawn agent_run int unicode_decimal
                      (Text.strip typed) s t1).
  { unfold turn, t1.
    now rewrite (@chat_iteration_ordinary client spawn int unicode_decimal
                   all_pods _ s t typed rest Hread Hord). }
  rewrite Hturn. unfold oracle_turn. fold prompt.
  split; [|split; [|split; [|split; [|split; [|split]]]]].
  - intros agent_run' H.
    rewrite (@chat_iteration_ordinary client spawn int unicode_decimal
               all_pods _ s t typed rest Hread Hord).
    unfold oracle_turn. fold prompt t1. now rewrite H.
  - intros e ->. reflexivity.
  - intros o ->. exists (plain_text o). split; [reflexivity|].
    intros given Hg Hne. unfold plain_text. rewrite Hg. simpl. rewrite Hne.
    simpl. now rewrite Hne.
  - intros f ->. reflexivity.
  - intros r -> ->. reflexivity.
  - intros r output t2 -> Hty ->.
    destruct (req_type r) eqn:Ety;
      try (unfold result_block; rewrite Ety; reflexivity).
    now contradiction Hty.
  - intros r e t2 -> Hty ->.
    destruct (req_type r) eqn:Ety; try reflexivity. now contradiction Hty.
Qed.

(** On the small cluster: the operator types hi on api-1; the oracle, which
    answers ok to the prompt made of the context and the block "User: hi"
    and to no other, is asked that prompt, and the context gains the model
    response alone. *)
Lemma utterance_sent_demo :
  chat_iteration Demo.client no_kubectl hi_oracle demo_int no_unicode_decimal
    Demo.rows demo_session hi_terminal
  = Continue
      {| cur_ns := "prod"; cur_pod := "api-1";
         cur_reason := "CrashLoopBackOff"; current_idx := 0;
         context := "Pod api-1 in namespace prod is failing: CrashLoopBackOff"
                    ++ LF ++ LF ++ "# Model Response" ++ LF ++ "ok" ++ LF |}
      {| keys := []; replies := [] |}.
Proof.
  destruct (@utterance_sent_not_appended Demo.client no_kubectl hi_oracle
              demo_int no_unicode_decimal Demo.rows demo_session hi_terminal
              "hi" [] eq_refl eq_refl)
    as (_ & _ & Hplain & _).
  destruct (Hplain ok_reply eq_refl) as (text & Hturn & Htext).
  rewrite (Htext "ok" eq_refl eq_refl) in Hturn. exact Hturn.
Defined.

(** ** [run_cmd] *)

Lemma all_str_map_Some (args : list string) : all_str (map Some args) = Some args.
Proof.
  induction args as [| a args IH]; simpl; [reflexivity|]. now rewrite IH.
Qed.

(** Output of a command that ran to a zero exit status comes back as it
    is. *)
Lemma run_cmd_success (spawn : list string -> result string)
  (args : list string) (out : string) :
  spawn args = Ok out -> run_cmd spawn (map Some args) = Ok out.
Proof.
  intros H. unfold run_cmd, check_output. now rewrite all_str_map_Some, H.
Qed.

Lemma contains_prefix (needle hay : string) :
  String.prefix needle hay = true -> contains needle hay = true.
Proof.
  destruct hay; simpl; intros ->; reflexivity.
Qed.

Lemma prefix_app (a b : string) : String.prefix a (a ++ b) = true.
Proof.
  induction a as [| c a IH]; simpl.
  - now destruct b.
  - destruct (Ascii.ascii_dec c c) as [_|N]; [exact IH | congruence].
Qed.

Lemma contains_app (needle a b : string) :
  contains needle (a ++ needle ++ b) = true.
Proof.
  induction a as [| c a IH]; simpl.
  - apply contains_prefix, prefix_app.
  - rewrite IH. apply orb_true_r.
Qed.

Lemma string_app_assoc (a b c : string) : (a ++ b) ++ c = a ++ b ++ c.
Proof.
  induction a as [| x a IH]; simpl; [reflexivity | now rewrite IH].
Qed.

Lemma string_app_nil (a : string) : a ++ "" = a.
Proof.
  induction a as [| x a IH]; simpl; [reflexivity | now rewrite IH].
Qed.

(** X1.  A non-zero exit status is captured: the text returned starts with
    the error prefix and holds the command and the captured output. *)
Lemma run_cmd_called_process_error (spawn : list string -> result string)
  (args : list string) (output : string) :
  spawn args = Raise (CalledProcessError output) ->
  run_cmd spawn (map Some args) = Ok (error_text args output)
  /\ String.prefix "❌ Error executing " (error_text args output) = true
  /\ contains (join " " args) (error_text args output) = true
  /\ contains output (error_text args output) = true.
Proof.
  intros H. split; [|split; [|split]].
  - unfold run_cmd, check_output. now rewrite all_str_map_Some, H.
  - unfold error_text. apply prefix_app.
  - unfold error_text. apply contains_app.
  - unfold error_text.
    replace ("❌ Error executing " ++ join " " args ++ ":" ++ LF ++ output)
      with (("❌ Error executing " ++ join " " args ++ ":" ++ LF) ++ output ++ "").
    + apply contains_app.
    + now rewrite string_app_nil, !string_app_assoc.
Qed.

(** C8 fails on the code.  On a host where kubectl cannot be started,
    [run_cmd] raises [FileNotFoundError] instead of returning a text, and the
    turn in which the oracle asked for the events ends the chat loop with
    that exception; a DESCRIBE_POD request without name and namespace makes
    [run_cmd] raise [TypeError] on every host. *)
Theorem run_cmd_lets_exceptions_through :
  run_cmd no_kubectl
    [Some "kubectl"; Some "get"; Some "events"; Some "-n"; Some "prod"]
  = Raise FileNotFoundError
  /\ chat_iteration Demo.client no_kubectl events_oracle demo_int
       no_unicode_decimal Demo.rows demo_session hi_terminal
     = Crashed FileNotFoundError {| keys := []; replies := [] |}
  /\ (forall spawn : list string -> result string,
        run_cmd spawn
          [Some "kubectl"; Some "describe"; Some "pod"; None; Some "-n"; None]
        = Raise TypeError)
  /\ (forall spawn : list string -> result string,
        chat_iteration Demo.client spawn describe_oracle demo_int
          no_unicode_decimal Demo.rows demo_session hi_terminal
        = Crashed TypeError {| keys := []; replies := [] |}).
Proof.
  repeat split.
Qed.

(** The same request on a host where kubectl runs and fails is captured. *)
Example run_cmd_captures_exit_status :
  chat_iteration Demo.client kubectl_fails events_oracle demo_int
    no_unicode_decimal Demo.rows demo_session hi_terminal
  = Continue
      (set_context demo_session
         (context demo_session ++ LF ++ LF
          ++ "# Result of GET_EVENTS (prod/None)" ++ LF
          ++ "❌ Error executing kubectl get events -n prod:" ++ LF
          ++ "Error from server (NotFound)" ++ LF))
      {| keys := []; replies := [] |}.
Proof. reflexivity. Qed.

(** ** [_format_bullets] *)

(** C9 fails on the code.  A numbered marker of two digits that already
    starts the text (or a line) is cut after its first digit: the second
    digit is preceded by a digit, not by a line feed, so the pattern matches
    there. *)
Theorem numbered_marker_cut_at_line_start :
  forall unicode_decimal : Bullets.char -> bool,
    Bullets._format_bullets unicode_decimal "10. restart the pod"
    = "1" ++ LF ++ "0. restart the pod"
    /\ Bullets._format_bullets unicode_decimal
         ("9. drain the node" ++ LF ++ "10. restart the pod")
       = "9. drain the node" ++ LF ++ "1" ++ LF ++ "0. restart the pod".
Proof.
  intros unicode_decimal. split; reflexivity.
Qed.

(** The remediation of the scenario in the specification keeps its two
    bullet lines; a bullet inside a line is moved to a line of its own. *)
Example format_bullets_scenario :
  forall unicode_decimal : Bullets.char -> bool,
    Bullets._format_bullets unicode_decimal
      ("- raise memory limit" ++ LF ++ "- check for leak")
    = "- raise memory limit" ++ LF ++ "- check for leak"
    /\ Bullets._format_bullets unicode_decimal "Fix: - raise limit • check 2. retry"
       = "Fix: " ++ LF ++ "- raise limit " ++ LF ++ "• check " ++ LF ++ "2. retry".
Proof.
  intros unicode_decimal. split; reflexivity.
Qed.

Lemma sub_from_adds_line_feeds (body : list Bullets.char -> nat)
  (l : list Bullets.char) :
  forall prev inside,
    line_feeds_added l (Bullets.sub_from body prev inside l).
Proof.
  induction l as [| c l IH]; intros prev inside; simpl.
  - constructor.
  - destruct inside as [| k].
    + destruct (if Bullets.lookbehind prev then body (c :: l) else 0).
      * apply added_keep, IH.
      * apply added_feed, added_keep, IH.
    + apply added_keep, IH.
Qed.

Lemma line_feeds_added_trans (a b c : list Bullets.char) :
  line_feeds_added a b -> line_feeds_added b c -> line_feeds_added a c.
Proof.
  intros Hab Hbc. revert a Hab.
  induction Hbc as [| x b c Hbc IH | b c Hbc IH]; intros a Hab.
  - exact Hab.
  - inversion Hab as [| y a' b' Ha | a' b' Ha]; subst.
    + apply added_keep. now apply IH.
    + apply added_feed. now apply IH.
  - apply added_feed. now apply IH.
Qed.

(** X2.  Whatever the text, the normaliser only adds line feeds: the
    characters of the text come out in their order with nothing removed. *)
Lemma format_bullets_adds_line_feeds
  (unicode_decimal : Bullets.char -> bool) (text : string) :
  exists out,
    line_feeds_added (Bullets.chars text) out
    /\ Bullets._format_bullets unicode_decimal text = Bullets.unchars out.
Proof.
  unfold Bullets._format_bullets, Bullets.sub.
  eexists. split; [|reflexivity].
  eapply line_feeds_added_trans; apply sub_from_adds_line_feeds.
Qed.

(** X3.  A STOP request ends the loop and runs no command: the turn is the
    same whatever the host would answer. *)
Lemma stop_exits_without_dispatch (client : Client)
  (spawn spawn' : list string -> result string)
  (agent_run : string -> result reply) (int : string -> option Z)
  (unicode_decimal : Bullets.char -> bool) (u : string)
  (s : session) (t : terminal) (ns name : option string) :
  agent_run (context s ++ LF ++ "User: " ++ u) = Ok (Action (request STOP ns name)) ->
  oracle_turn client spawn agent_run int unicode_decimal u s t = Exited t
  /\ oracle_turn client spawn' agent_run int unicode_decimal u s t = Exited t.
Proof.
  intros H. unfold oracle_turn. rewrite H. split; reflexivity.
Qed.

(** X4.  With one condition per type, as the API keeps them, a pod is not
    ready exactly when none of its conditions has type "Ready" and status
    "True". *)
Lemma not_ready_no_true_ready_condition (st : V1PodStatus) :
  one_condition_per_type st ->
  (Spec.not_ready st <->
   ~ exists c, In c (or_nil (conditions st))
               /\ cond_type c = "Ready" /\ cond_status c = "True").
Proof.
  unfold one_condition_per_type, Spec.not_ready, Spec.ready_condition,
    find_ready_condition.
  intros Hn. split.
  - intros H (c & Hin & Ht & Hs).
    destruct (find (fun condition => cond_type condition =? "Ready")
                (or_nil (conditions st))) as [c'|] eqn:Ef.
    + pose proof (find_some _ _ Ef) as [Hin' Ht'].
      apply String.eqb_eq in Ht'.
      assert (c = c') by (eapply NoDup_map_eq; eauto; congruence).
      subst c'. now apply (H c).
    + apply (find_none _ _ Ef) in Hin. rewrite Ht in Hin. discriminate.
  - intros H c Ef Hs. apply H. exists c.
    pose proof (find_some _ _ Ef) as [Hin Ht].
    apply String.eqb_eq in Ht. auto.
Qed.

Lemma not_ready_demo :
  Spec.not_ready (status_of Demo.crashing) <->
  ~ exists c, In c (or_nil (conditions (status_of Demo.crashing)))
              /\ cond_type c = "Ready" /\ cond_status c = "True".
Proof.
  apply (@not_ready_no_true_ready_condition (status_of Demo.crashing)).
  unfold one_condition_per_type. simpl. repeat constructor. intros [].
Defined.

Lemma run_cmd_capture_demo :
  run_cmd kubectl_fails
    (map Some ["kubectl"; "get"; "events"; "-n"; "prod"])
  = Ok (error_text ["kubectl"; "get"; "events"; "-n"; "prod"]
          "Error from server (NotFound)")
  /\ String.prefix "❌ Error executing "
       (error_text ["kubectl"; "get"; "events"; "-n"; "prod"]
          "Error from server (NotFound)") = true
  /\ contains (join " " ["kubectl"; "get"; "events"; "-n"; "prod"])
       (error_text ["kubectl"; "get"; "events"; "-n"; "prod"]
          "Error from server (NotFound)") = true
  /\ contains "Error from server (NotFound)"
       (error_text ["kubectl"; "get"; "events"; "-n"; "prod"]
          "Error from server (NotFound)") = true.
Proof.
  apply (@run_cmd_called_process_error kubectl_fails
           ["kubectl"; "get"; "events"; "-n"; "prod"]
           "Error from server (NotFound)").
  reflexivity.
Defined.

Lemma stop_demo :
  oracle_turn Demo.client no_kubectl stop_oracle demo_int no_unicode_decimal
    "hi" demo_session hi_terminal = Exited hi_terminal
  /\ oracle_turn Demo.client kubectl_fails stop_oracle demo_int
       no_unicode_decimal "hi" demo_session hi_terminal = Exited hi_terminal.
Proof.
  apply (@stop_exits_without_dispatch Demo.client no_kubectl kubectl_fails
           stop_oracle demo_int no_unicode_decimal "hi" demo_session
           hi_terminal None None).
  reflexivity.
Defined.

(** * Further properties of the code *)

(** ** The reader of the terminal *)

Lemma read_keys_typed (pre post : list ascii) :
  forallb uncommitted pre = true ->
  forall buffer,
    read_keys (pre ++ post) buffer = read_keys post (type_keys pre buffer).
Proof.
  induction pre as [| ch pre IH]; simpl; intros Hu buffer; [reflexivity|].
  apply andb_prop in Hu. destruct Hu as [Hch Hu].
  unfold uncommitted in Hch. apply negb_true_iff in Hch.
  apply orb_false_elim in Hch. destruct Hch as [Hch Hnl].
  apply orb_false_elim in Hch. destruct Hch as [Hn Hcr].
  rewrite Hn, Hcr, Hnl. simpl.
  destruct (Ascii.eqb ch DEL); [apply IH, Hu|].
  destruct (printable ch); apply IH, Hu.
Qed.

Lemma read_keys_none (ks : list ascii) :
  forall buffer,
    read_keys ks buffer = None <-> forallb uncommitted ks = true.
Proof.
  induction ks as [| ch ks IH]; simpl; intros buffer; [tauto|].
  unfold uncommitted at 1.
  destruct (Ascii.eqb ch CTRL_N); simpl; [split; discriminate|].
  destruct (Ascii.eqb ch CR); simpl; [split; discriminate|].
  destruct (Ascii.eqb ch NL); simpl; [split; discriminate|].
  destruct (Ascii.eqb ch DEL); [apply IH|].
  destruct (printable ch); apply IH.
Qed.

(** X5.  The reader waits for ever exactly when no key to come is the
    return key, the line feed or CTRL+n; otherwise it stops at the first of
    them and leaves the keys after it unread. *)
Theorem reader_stops_at_first_commit :
  forall ks : list ascii,
    (read_user_input_or_ctrl_n ks = None <-> forallb uncommitted ks = true)
    /\ (forall text flag rest,
          read_user_input_or_ctrl_n ks = Some (text, flag, rest) ->
          exists pre k,
            ks = (pre ++ k :: rest)%list
            /\ forallb uncommitted pre = true
            /\ uncommitted k = false
            /\ flag = Ascii.eqb k CTRL_N).
Proof.
  intros ks. split; [apply read_keys_none|].
  unfold read_user_input_or_ctrl_n. generalize (@nil ascii).
  induction ks as [| ch ks IH]; simpl; intros buffer text flag rest;
    [discriminate|].
  destruct (Ascii.eqb ch CTRL_N) eqn:Hn; simpl.
  { intros [= <- <- <-]. exists [], ch. unfold uncommitted. now rewrite Hn. }
  destruct (Ascii.eqb ch CR || Ascii.eqb ch NL) eqn:Hc.
  { intros [= <- <- <-]. exists [], ch. unfold uncommitted.
    rewrite Hn. simpl. now rewrite Hc. }
  assert (Hu : uncommitted ch = true).
  { unfold uncommitted. rewrite Hn. simpl. now rewrite Hc. }
  intros H.
  assert (H' : exists b, read_keys ks b = Some (text, flag, rest)).
  { destruct (Ascii.eqb ch DEL); [eauto|]. destruct (printable ch); eauto. }
  destruct H' as [b Hb]. destruct (IH b text flag rest Hb) as (pre & k & -> & Hp & Hk & Hf).
  exists (ch :: pre), k. simpl. now rewrite Hu, Hp.
Qed.

Lemma lstrip_clean (s : string) : starts_clean (Text.lstrip s) = true.
Proof.
  induction s as [| c s IH]; simpl; [reflexivity|].
  destruct (Text.is_space c) eqn:E; [exact IH|]. simpl. now rewrite E.
Qed.

Lemma lstrip_of_clean (s : string) : starts_clean s = true -> Text.lstrip s = s.
Proof.
  destruct s as [| c s]; simpl; [reflexivity|].
  intros H. apply negb_true_iff in H. now rewrite H.
Qed.

Lemma rstrip_clean (s : string) :
  starts_clean s = true -> starts_clean (Text.rstrip s) = true.
Proof.
  destruct s as [| c s]; simpl; [reflexivity|]. intros H.
  destruct (Text.rstrip s); [|exact H].
  apply negb_true_iff in H. rewrite H. simpl. now rewrite H.
Qed.

Lemma rstrip_idem (s : string) : Text.rstrip (Text.rstrip s) = Text.rstrip s.
Proof.
  induction s as [| c s IH]; simpl; [reflexivity|].
  destruct (Text.rstrip s) as [| d r] eqn:E.
  - destruct (Text.is_space c) eqn:Ec; simpl; [reflexivity | now rewrite Ec].
  - change (Text.rstrip (String c (String d r)))
      with (match Text.rstrip (String d r) with
            | EmptyString =>
                if Text.is_space c then EmptyString else String c EmptyString
            | kept => String c kept
            end).
    now rewrite IH.
Qed.

Lemma strip_idem (s : string) : Text.strip (Text.strip s) = Text.strip s.
Proof.
  unfold Text.strip.
  rewrite (lstrip_of_clean (Text.rstrip (Text.lstrip s))).
  - apply rstrip_idem.
  - apply rstrip_clean, lstrip_clean.
Qed.

Lemma lstrip_printable (s : string) :
  printable_text s = true -> printable_text (Text.lstrip s) = true.
Proof.
  unfold printable_text.
  induction s as [| c s IH]; simpl; [reflexivity|]. intros H.
  destruct (Text.is_space c); [|exact H].
  apply andb_prop in H. now apply IH.
Qed.

Lemma rstrip_printable (s : string) :
  printable_text s = true -> printable_text (Text.rstrip s) = true.
Proof.
  unfold printable_text.
  induction s as [| c s IH]; simpl; [reflexivity|]. intros H.
  apply andb_prop in H. destruct H as [Hc Hs]. specialize (IH Hs).
  destruct (Text.rstrip s).
  - destruct (Text.is_space c); simpl; [reflexivity | now rewrite Hc].
  - simpl in *. now rewrite Hc, IH.
Qed.

Lemma forallb_removelast {A : Type} (p : A -> bool) (l : list A) :
  forallb p l = true -> forallb p (removelast l) = true.
Proof.
  induction l as [| x l IH]; simpl; [reflexivity|]. intros H.
  apply andb_prop in H. destruct H as [Hx Hl].
  destruct l; [reflexivity|]. simpl in *.
  rewrite Hx. now apply IH.
Qed.

Lemma read_keys_printable (ks : list ascii) :
  forall buffer text flag rest,
    forallb printable buffer = true ->
    read_keys ks buffer = Some (text, flag, rest) ->
    printable_text text = true
    /\ Text.strip text = text
    /\ (flag = true -> text = "").
Proof.
  induction ks as [| ch ks IH]; simpl; intros buffer text flag rest Hb;
    [discriminate|].
  destruct (Ascii.eqb ch CTRL_N).
  { intros [= <- <- <-]. repeat split. }
  destruct (Ascii.eqb ch CR || Ascii.eqb ch NL).
  { intros [= <- <- <-]. split; [|split; [apply strip_idem | discriminate]].
    unfold Text.strip. apply rstrip_printable, lstrip_printable.
    unfold printable_text. now rewrite list_ascii_of_string_of_list_ascii. }
  destruct (Ascii.eqb ch DEL).
  { apply IH. now apply forallb_removelast. }
  destruct (printable ch) eqn:Hp; apply IH; [|exact Hb].
  rewrite forallb_app. simpl. now rewrite Hb, Hp.
Qed.

(** X6.  Whatever is typed, the text the reader returns holds printable
    ASCII only and neither starts nor ends with white space (stripping it
    again changes nothing); with the switch result the text is empty. *)
Theorem reader_text_is_printable_and_trimmed :
  forall (ks : list ascii) (text : string) (flag : bool) (rest : list ascii),
    read_user_input_or_ctrl_n ks = Some (text, flag, rest) ->
    printable_text text = true
    /\ Text.strip text = text
    /\ (flag = true -> text = "").
Proof.
  intros ks text flag rest H.
  now apply (@read_keys_printable ks [] text flag rest).
Qed.

Lemma reader_text_demo :
  printable_text "" = true
  /\ Text.strip "" = ""
  /\ (true = true -> "" = "").
Proof.
  apply (@reader_text_is_printable_and_trimmed demo_keys "" true
           (list_ascii_of_string "rest")).
  reflexivity.
Defined.

Lemma printable_plain (c : ascii) :
  printable c = true -> uncommitted c = true /\ Ascii.eqb c DEL = false.
Proof.
  destruct c as [[] [] [] [] [] [] [] []]; try discriminate; split; reflexivity.
Qed.

Lemma type_keys_printable (l buffer : list ascii) :
  forallb printable l = true -> type_keys l buffer = (buffer ++ l)%list.
Proof.
  revert buffer. induction l as [| c l IH]; simpl; intros buffer H.
  - now rewrite app_nil_r.
  - apply andb_prop in H. destruct H as [Hc Hl].
    destruct (printable_plain c Hc) as [_ Hd]. rewrite Hd, Hc.
    rewrite (IH _ Hl), <- app_assoc. reflexivity.
Qed.

Lemma printable_uncommitted (l : list ascii) :
  forallb printable l = true -> forallb uncommitted l = true.
Proof.
  induction l as [| c l IH]; simpl; [reflexivity|]. intros H.
  apply andb_prop in H. destruct H as [Hc Hl].
  destruct (printable_plain c Hc) as [Hu _]. now rewrite Hu, IH.
Qed.

(** X7.  A line of printable characters followed by the return key or a line
    feed comes back stripped, with the keys after it left unread.  Before the
    line is committed, the erase key takes back the last printable key (and
    does nothing on an empty line), and a key that is neither printable nor
    one of the four control keys is dropped. *)
Theorem reader_returns_typed_line :
  forall (text : string) (pre post : list ascii) (c : ascii),
    printable_text text = true ->
    forallb uncommitted pre = true ->
    read_user_input_or_ctrl_n (list_ascii_of_string text ++ CR :: post)
    = Some (Text.strip text, false, post)
    /\ read_user_input_or_ctrl_n (list_ascii_of_string text ++ NL :: post)
       = Some (Text.strip text, false, post)
    /\ (printable c = true ->
        read_user_input_or_ctrl_n (pre ++ c :: DEL :: post)
        = read_user_input_or_ctrl_n (pre ++ post))
    /\ read_user_input_or_ctrl_n (DEL :: post) = read_user_input_or_ctrl_n post
    /\ (printable c = false -> uncommitted c = true -> Ascii.eqb c DEL = false ->
        read_user_input_or_ctrl_n (pre ++ c :: post)
        = read_user_input_or_ctrl_n (pre ++ post)).
Proof.
  intros text pre post c Ht Hpre. unfold read_user_input_or_ctrl_n.
  unfold printable_text in Ht.
  pose proof (printable_uncommitted _ Ht) as Hu.
  repeat split.
  - rewrite (read_keys_typed _ (CR :: post) Hu), (type_keys_printable _ [] Ht).
    simpl. now rewrite string_of_list_ascii_of_string.
  - rewrite (read_keys_typed _ (NL :: post) Hu), (type_keys_printable _ [] Ht).
    simpl. now rewrite string_of_list_ascii_of_string.
  - intros Hc. destruct (printable_plain c Hc) as [Hcu Hcd].
    rewrite !(read_keys_typed pre _ Hpre). simpl.
    unfold uncommitted in Hcu. apply negb_true_iff in Hcu.
    apply orb_false_elim in Hcu. destruct Hcu as [Hcu Hnl].
    apply orb_false_elim in Hcu. destruct Hcu as [Hn Hcr].
    rewrite Hn, Hcr, Hnl, Hcd, Hc. simpl. now rewrite removelast_last.
  - intros Hc Hcu Hcd.
    rewrite !(read_keys_typed pre _ Hpre). simpl.
    unfold uncommitted in Hcu. apply negb_true_iff in Hcu.
    apply orb_false_elim in Hcu. destruct Hcu as [Hcu Hnl].
    apply orb_false_elim in Hcu. destruct Hcu as [Hn Hcr].
    now rewrite Hn, Hcr, Hnl, Hcd, Hc.
Qed.

Lemma reader_line_demo :
  read_user_input_or_ctrl_n (list_ascii_of_string " why  " ++ CR :: [CTRL_N])
  = Some (Text.strip " why  ", false, [CTRL_N])
  /\ read_user_input_or_ctrl_n (list_ascii_of_string " why  " ++ NL :: [CTRL_N])
     = Some (Text.strip " why  ", false, [CTRL_N])
  /\ (printable "x" = true ->
      read_user_input_or_ctrl_n
        (list_ascii_of_string "wh" ++ "x"%char :: DEL :: [CTRL_N])
      = read_user_input_or_ctrl_n (list_ascii_of_string "wh" ++ [CTRL_N]))
  /\ read_user_input_or_ctrl_n (DEL :: [CTRL_N])
     = read_user_input_or_ctrl_n [CTRL_N]
  /\ (printable "x" = false -> uncommitted "x" = true ->
      Ascii.eqb "x" DEL = false ->
      read_user_input_or_ctrl_n (list_ascii_of_string "wh" ++ "x"%char :: [CTRL_N])
      = read_user_input_or_ctrl_n (list_ascii_of_string "wh" ++ [CTRL_N])).
Proof.
  apply (@reader_returns_typed_line " why  " (list_ascii_of_string "wh")
           [CTRL_N] "x"%char); reflexivity.
Defined.

(** ** The session over the turns *)

Lemma prefix_refl (a : string) : String.prefix a a = true.
Proof.
  induction a as [| c a IH]; simpl; [reflexivity|].
  destruct (Ascii.ascii_dec c c) as [_|N]; [exact IH | congruence].
Qed.

Lemma prefix_app_r (p a b : string) :
  String.prefix p a = true -> String.prefix p (a ++ b) = true.
Proof.
  revert a. induction p as [| c p IH]; intros a; simpl.
  - intros _. now destruct (a ++ b).
  - destruct a as [| d a]; simpl; [discriminate|].
    destruct (Ascii.ascii_dec c d); [apply IH | discriminate].
Qed.

Section Turns.

Variables (client : Client) (spawn : list string -> result string).
Variables (agent_run : string -> result reply) (int : string -> option Z).
Variables (unicode_decimal : Bullets.char -> bool).
Variable all_pods : list failing_pod.

(** A turn that leaves the session open either keeps the target and adds to
    the context, or selects a row of the working set afresh. *)
Lemma chat_iteration_shape (s s' : session) (t t' : terminal) :
  chat_iteration client spawn agent_run int unicode_decimal all_pods s t
  = Continue s' t' ->
  (cur_ns s' = cur_ns s /\ cur_pod s' = cur_pod s
   /\ cur_reason s' = cur_reason s /\ current_idx s' = current_idx s
   /\ exists block, context s' = context s ++ block)
  \/ (exists idx row,
        nth_error all_pods idx = Some row /\ s' = select_row idx row).
Proof.
  assert (Hsame : forall t0, Continue s t0 = Continue s' t' ->
            cur_ns s' = cur_ns s /\ cur_pod s' = cur_pod s
            /\ cur_reason s' = cur_reason s /\ current_idx s' = current_idx s
            /\ exists block, context s' = context s ++ block).
  { intros t0 [= <- <-]. repeat split. exists "". now rewrite string_app_nil. }
  assert (Hadd : forall c t0,
            Continue (set_context s (context s ++ c)) t0 = Continue s' t' ->
            cur_ns s' = cur_ns s /\ cur_pod s' = cur_pod s
            /\ cur_reason s' = cur_reason s /\ current_idx s' = current_idx s
            /\ exists block, context s' = context s ++ block).
  { intros c t0 [= <- <-]. repeat split. now exists c. }
  unfold chat_iteration.
  destruct (read_user_input_or_ctrl_n (keys t)) as [[[user_input ctrl_n] rest]|];
    [|discriminate].
  destruct ctrl_n.
  { unfold switch_next. destruct (length all_pods); [discriminate|].
    cbv zeta. destruct (nth_error all_pods _) as [row|] eqn:E; [|discriminate].
    intros [= <- <-]. right. eauto. }
  cbv zeta.
  destruct (existsb _ _); [discriminate|].
  destruct (Text.startswith _ _).
  { unfold switch_command.
    destruct (nth_error (Text.split _) 1) as [word|];
      [|intros H; left; eapply Hsame, H].
    destruct (int word) as [v|]; [|intros H; left; eapply Hsame, H].
    destruct (_ && _)%bool; [|intros H; left; eapply Hsame, H].
    destruct (nth_error all_pods _) as [row|] eqn:E;
      [|intros H; left; eapply Hsame, H].
    intros [= <- <-]. right. eauto. }
  unfold oracle_turn.
  destruct (agent_run _) as [[result|result|o]|e].
  - destruct (req_type result); try discriminate;
      destruct (dispatch client spawn int result s _) as [[output|e] t1];
      try discriminate; intros H; left; eapply Hadd, H.
  - intros H; left; eapply Hadd, H.
  - intros H; left; eapply Hadd, H.
  - intros H; left; eapply Hsame, H.
Qed.

Lemma chat_iteration_invariant (s s' : session) (t t' : terminal) :
  on_row all_pods s -> about_target s ->
  chat_iteration client spawn agent_run int unicode_decimal all_pods s t
  = Continue s' t' ->
  on_row all_pods s' /\ about_target s'.
Proof.
  intros (row & Hrow & Hns & Hpod & Hreason) Habout H.
  apply chat_iteration_shape in H.
  destruct H as [(Ens & Epod & Ereason & Eidx & block & Ec)
                | (idx & row' & Hrow' & ->)].
  - split.
    + exists row. rewrite Ens, Epod, Ereason, Eidx. auto.
    + unfold about_target in *. rewrite Ens, Epod, Ereason, Ec.
      now apply prefix_app_r.
  - split.
    + exists row'. simpl. auto.
    + unfold about_target. simpl. apply prefix_refl.
Qed.

Lemma chat_loop_invariant (fuel : nat) :
  forall (s s' : session) (t t' : terminal),
    on_row all_pods s -> about_target s ->
    chat_loop client spawn agent_run int unicode_decimal all_pods fuel s t
    = Continue s' t' ->
    on_row all_pods s' /\ about_target s'.
Proof.
  induction fuel as [| fuel IH]; simpl; intros s s' t t' Hrow Habout.
  - intros [= <- <-]. auto.
  - destruct (chat_iteration _ _ _ _ _ _ s t) as [s1 t1| | |] eqn:E;
      try discriminate.
    destruct (@chat_iteration_invariant s s1 t t1 Hrow Habout E)
      as [Hrow1 Habout1].
    now apply IH.
Qed.

End Turns.

Lemma index_of_found (ns pod reason : string) (rows : list failing_pod) :
  forall i row,
    In row rows ->
    row_ns row = ns -> row_pod row = pod -> row_reason row = reason ->
    exists j first,
      index_of ns pod reason rows i = Some (i + j)
      /\ nth_error rows j = Some first
      /\ row_ns first = ns /\ row_pod first = pod /\ row_reason first = reason.
Proof.
  induction rows as [| r rows IH]; intros i row Hin Hns Hpod Hreason;
    [destruct Hin|].
  simpl index_of.
  destruct ((row_ns r =? ns) && (row_pod r =? pod) && (row_reason r =? reason))%bool
    eqn:E.
  - exists 0, r. rewrite Nat.add_0_r.
    apply andb_prop in E. destruct E as [E E3].
    apply andb_prop in E. destruct E as [E1 E2].
    apply String.eqb_eq in E1, E2, E3. auto.
  - destruct Hin as [->|Hin].
    + rewrite Hns, Hpod, Hreason, !String.eqb_refl in E. discriminate.
    + destruct (IH (S i) row Hin Hns Hpod Hreason)
        as (j & first & Hj & Hnth & H1 & H2 & H3).
      exists (S j), first. rewrite Nat.add_succ_r. auto.
Qed.

(** X8.  A session opened on a row of the working set points, at its start
    and after any number of turns, at a row that carries the namespace, pod
    and reason of the session, and its context starts with the description
    of that pod: the switches move the cursor and the target together and
    start the context again, the other turns only add to the context. *)
Theorem session_stays_on_a_row :
  forall (client : Client) (spawn : list string -> result string)
         (agent_run : string -> result reply) (int : string -> option Z)
         (unicode_decimal : Bullets.char -> bool)
         (all_pods : list failing_pod) (row : failing_pod)
         (fuel : nat) (t t' : terminal) (s' : session),
    In row all_pods ->
    chat_loop client spawn agent_run int unicode_decimal all_pods fuel
      (initial_session (row_ns row) (row_pod row) (row_reason row) all_pods) t
    = Continue s' t' ->
    on_row all_pods s' /\ about_target s'.
Proof.
  intros client spawn agent_run int unicode_decimal all_pods row fuel t t' s'
         Hin H.
  eapply chat_loop_invariant; [| |exact H].
  - destruct (@index_of_found (row_ns row) (row_pod row) (row_reason row)
                all_pods 0 row Hin eq_refl eq_refl eq_refl)
      as (j & first & Hj & Hnth & H1 & H2 & H3).
    exists first. unfold initial_session. simpl. rewrite Hj. simpl. auto.
  - unfold about_target, initial_session. simpl. apply prefix_refl.
Qed.

Lemma session_on_row_demo :
  on_row Demo.rows
    {| cur_ns := "prod"; cur_pod := "web-0"; cur_reason := "Pending";
       current_idx := 1;
       context := "Pod web-0 in namespace prod is failing: Pending" |}
  /\ about_target
       {| cur_ns := "prod"; cur_pod := "web-0"; cur_reason := "Pending";
          current_idx := 1;
          context := "Pod web-0 in namespace prod is failing: Pending" |}.
Proof.
  apply (@session_stays_on_a_row Demo.client (fun _ => Ok "")
           (fun _ => Raise ValueError) demo_int no_unicode_decimal Demo.rows
           ("prod", "api-1", "CrashLoopBackOff", Some "Deployment", Some "api")
           1 demo_terminal
           {| keys := list_ascii_of_string "rest"; replies := [] |}).
  - simpl. auto.
  - reflexivity.
Defined.

Section Cycle.

Variables (client : Client) (spawn : list string -> result string).
Variables (agent_run : string -> result reply) (int : string -> option Z).
Variables (unicode_decimal : Bullets.char -> bool).
Variable all_pods : list failing_pod.
Variables (rest : list ascii) (lines : list string).

Lemma switches_advance (k : nat) :
  0 < length all_pods ->
  forall s : session,
    exists row,
      nth_error all_pods ((current_idx s + S k) mod length all_pods) = Some row
      /\ chat_loop client spawn agent_run int unicode_decimal all_pods (S k) s
           {| keys := repeat CTRL_N (S k) ++ rest; replies := lines |}
         = Continue
             (select_row ((current_idx s + S k) mod length all_pods) row)
             {| keys := rest; replies := lines |}.
Proof.
  intros Hn. induction k as [| k IH]; intros s.
  - destruct (nth_error_mod all_pods (current_idx s + 1) Hn) as [row Hrow].
    exists row. split; [exact Hrow|].
    simpl. unfold chat_iteration, read_user_input_or_ctrl_n. simpl.
    unfold switch_next.
    destruct (length all_pods) as [| n] eqn:El; [lia|].
    cbv zeta. now rewrite Hrow.
  - destruct (nth_error_mod all_pods (current_idx s + 1) Hn) as [row1 Hrow1].
    destruct (IH (select_row ((current_idx s + 1) mod length all_pods) row1))
      as (row & Hrow & Hloop).
    simpl current_idx in *.
    assert (E : ((current_idx s + 1) mod length all_pods + S k) mod length all_pods
                = (current_idx s + S (S k)) mod length all_pods).
    { rewrite Nat.Div0.add_mod_idemp_l. f_equal. lia. }
    rewrite E in *.
    exists row. split; [exact Hrow|].
    change (chat_loop client spawn agent_run int unicode_decimal all_pods
              (S (S k)) s
              {| keys := CTRL_N :: (repeat CTRL_N (S k) ++ rest)%list;
                 replies := lines |}
            = Continue
                (select_row ((current_idx s + S (S k)) mod length all_pods) row)
                {| keys := rest; replies := lines |}).
    cbn [chat_loop].
    assert (Hstep :
              chat_iteration client spawn agent_run int unicode_decimal all_pods s
                {| keys := CTRL_N :: (repeat CTRL_N (S k) ++ rest)%list;
                   replies := lines |}
              = Continue
                  (select_row ((current_idx s + 1) mod length all_pods) row1)
                  {| keys := (repeat CTRL_N (S k) ++ rest)%list;
                     replies := lines |}).
    { unfold chat_iteration, read_user_input_or_ctrl_n. simpl.
      unfold switch_next.
      destruct (length all_pods) as [| n] eqn:El; [lia|].
      cbv zeta. now rewrite Hrow1. }
    rewrite Hstep. exact Hloop.
Qed.

End Cycle.

(** X9.  Pressing CTRL+n as many times as the working set has rows brings
    the session back to the row it was on, with the context started again
    from the description of that row. *)
Theorem switching_through_all_rows_returns :
  forall (client : Client) (spawn : list string -> result string)
         (agent_run : string -> result reply) (int : string -> option Z)
         (unicode_decimal : Bullets.char -> bool)
         (all_pods : list failing_pod) (s : session) (row : failing_pod)
         (rest : list ascii) (lines : list string),
    nth_error all_pods (current_idx s) = Some row ->
    chat_loop client spawn agent_run int unicode_decimal all_pods
      (length all_pods) s
      {| keys := repeat CTRL_N (length all_pods) ++ rest; replies := lines |}
    = Continue (select_row (current_idx s) row)
        {| keys := rest; replies := lines |}.
Proof.
  intros client spawn agent_run int unicode_decimal all_pods s row rest lines
         Hrow.
  assert (Hlt : current_idx s < length all_pods)
    by (apply nth_error_Some; congruence).
  destruct (length all_pods) as [| n] eqn:El; [lia|].
  destruct (@switches_advance client spawn agent_run int unicode_decimal
              all_pods rest lines n ltac:(lia) s) as (row' & Hrow' & Hloop).
  rewrite El in *.
  replace ((current_idx s + S n) mod S n) with (current_idx s) in *.
  - rewrite Hrow in Hrow'. injection Hrow' as <-. exact Hloop.
  - rewrite <- Nat.Div0.add_mod_idemp_r, Nat.Div0.mod_same, Nat.add_0_r.
    symmetry. now apply Nat.mod_small.
Qed.

Lemma switching_demo :
  chat_loop Demo.client no_kubectl hi_oracle demo_int no_unicode_decimal
    Demo.rows (length Demo.rows) demo_session
    {| keys := repeat CTRL_N (length Demo.rows) ++ [CR]; replies := [] |}
  = Continue
      (select_row (current_idx demo_session)
         ("prod", "api-1", "CrashLoopBackOff", Some "Deployment", Some "api"))
      {| keys := [CR]; replies := [] |}.
Proof.
  apply (@switching_through_all_rows_returns Demo.client no_kubectl hi_oracle
           demo_int no_unicode_decimal Demo.rows demo_session
           ("prod", "api-1", "CrashLoopBackOff", Some "Deployment", Some "api")
           [CR] []).
  reflexivity.
Defined.

Lemma prefix_head (a : ascii) (p s : string) :
  String.prefix (String a p) s = true -> exists s', s = String a s'.
Proof.
  destruct s as [| b s]; cbn [String.prefix]; [discriminate|].
  destruct (Ascii.ascii_dec a b) as [->|]; [eauto | discriminate].
Qed.

Lemma switch_is_no_exit_keyword (u : string) :
  Text.startswith u "switch" = true ->
  existsb (String.eqb (Text.lower u)) ["exit"; "quit"] = false.
Proof.
  unfold Text.startswith. intros H.
  apply prefix_head in H. destruct H as [u' ->]. reflexivity.
Qed.

(** X10.  Text that starts with the word switch is never sent to the oracle
    and runs no command, whatever follows the word: the turn is the same for
    every oracle, host and cluster, and the session stays open.  When the
    second word of the text is a number k from 1 to the number of rows, the
    session moves to row k (counting from 1): cursor, target and context are
    those of that row.  When there is no second word, or it is no number, or
    the number is out of range, the session is left exactly as it was. *)
Theorem switch_text_stays_local :
  forall (client client' : Client) (spawn spawn' : list string -> result string)
         (agent_run agent_run' : string -> result reply)
         (int : string -> option Z) (unicode_decimal : Bullets.char -> bool)
         (all_pods : list failing_pod) (s : session) (t : terminal)
         (typed : string) (rest : list ascii),
    read_user_input_or_ctrl_n (keys t) = Some (typed, false, rest) ->
    Text.startswith (Text.strip typed) "switch" = true ->
    let turn :=
      chat_iteration client spawn agent_run int unicode_decimal all_pods s t in
    let t1 := {| keys := rest; replies := replies t |} in
    let number :=
      match nth_error (Text.split (Text.strip typed)) 1 with
      | Some word => int word
      | None => None
      end in
    chat_iteration client' spawn' agent_run' int unicode_decimal all_pods s t
    = turn
    /\ (forall k ns pod reason ctrl_kind ctrl_name,
          number = Some k ->
          (1 <= k)%Z ->
          nth_error all_pods (Z.to_nat (k - 1))
          = Some (ns, pod, reason, ctrl_kind, ctrl_name) ->
          turn
          = Continue
              {| cur_ns := ns; cur_pod := pod; cur_reason := reason;
                 current_idx := Z.to_nat (k - 1);
                 context := "Pod " ++ pod ++ " in namespace " ++ ns
                            ++ " is failing: " ++ reason |}
              t1)
    /\ (number = None
        \/ (exists k,
              number = Some k
              /\ ~ (1 <= k <= Z.of_nat (length all_pods))%Z) ->
        turn = Continue s t1).
Proof.
  intros client client' spawn spawn' agent_run agent_run' int unicode_decimal
         all_pods s t typed rest Hread Hsw turn t1 number.
  unfold turn, chat_iteration. rewrite Hread. cbv beta iota zeta.
  rewrite (switch_is_no_exit_keyword _ Hsw), Hsw.
  split; [reflexivity|].
  unfold switch_command. fold t1.
  unfold number.
  destruct (nth_error (Text.split (Text.strip typed)) 1) as [word|].
  2:{ split; [discriminate | reflexivity]. }
  destruct (int word) as [v|].
  2:{ split; [discriminate | reflexivity]. }
  split.
  - intros k ns pod reason ctrl_kind ctrl_name [= ->] Hk Hrow.
    assert (Hlt : Z.to_nat (k - 1) < length all_pods).
    { apply nth_error_Some. rewrite Hrow. discriminate. }
    destruct (Z.leb_spec 0 (k - 1)); [|lia].
    destruct (Z.ltb_spec (k - 1) (Z.of_nat (length all_pods))); [|lia].
    simpl. rewrite Hrow. reflexivity.
  - intros [H|(k & [= ->] & Hout)]; [discriminate|].
    destruct (Z.leb_spec 0 (k - 1)); simpl; [|reflexivity].
    destruct (Z.ltb_spec (k - 1) (Z.of_nat (length all_pods)));
      [|reflexivity].
    exfalso. apply Hout. lia.
Qed.

(** On the small cluster the session is on api-1, the first row; the
    operator types switch 2 and the session is on web-0, the second row,
    whatever the oracle and the host. *)
Lemma switch_text_demo :
  chat_iteration Demo.client no_kubectl hi_oracle demo_int no_unicode_decimal
    Demo.rows demo_session
    {| keys := list_ascii_of_string "switch 2" ++ [CR]; replies := [] |}
  = Continue
      {| cur_ns := "prod"; cur_pod := "web-0"; cur_reason := "Pending";
         current_idx := 1;
         context := "Pod web-0 in namespace prod is failing: Pending" |}
      {| keys := []; replies := [] |}.
Proof.
  destruct (@switch_text_stays_local Demo.client Demo.client no_kubectl
              kubectl_fails hi_oracle events_oracle demo_int
              no_unicode_decimal Demo.rows demo_session
              {| keys := list_ascii_of_string "switch 2" ++ [CR];
                 replies := [] |}
              "switch 2" [] eq_refl eq_refl)
    as (_ & Hmove & _).
  apply (Hmove 2%Z "prod" "web-0" "Pending" (Some "StatefulSet") (Some "web"));
    [reflexivity | easy | reflexivity].
Defined.

(** The word switch alone, a word that is no number and a number out of
    range leave the session as it is. *)
Example switch_text_refused :
  chat_iteration Demo.client no_kubectl hi_oracle demo_int no_unicode_decimal
    Demo.rows demo_session
    {| keys := list_ascii_of_string "switchboard is down" ++ [CR];
       replies := [] |}
  = Continue demo_session {| keys := []; replies := [] |}
  /\ chat_iteration Demo.client no_kubectl hi_oracle demo_int
       no_unicode_decimal Demo.rows demo_session
       {| keys := list_ascii_of_string "switch 3" ++ [CR]; replies := [] |}
     = Continue demo_session {| keys := []; replies := [] |}.
Proof. split; reflexivity. Qed.

(** ** More on controller resolution *)

(** X11.  Whatever the cluster answers, the result of the resolution is
    either no kind and no name or a kind together with a name: one is never
    returned without the other. *)
Theorem resolve_kind_and_name_together :
  forall (client : Client) (pod : V1Pod),
    resolve_controller_for_pod client pod = Ok (None, None)
    \/ exists kind name,
         resolve_controller_for_pod client pod = Ok (Some kind, Some name).
Proof.
  intros client pod. unfold resolve_controller_for_pod, resolve_body.
  destruct (new_AppsV1Api client) as [apps_v1|]; simpl; [|now left].
  destruct (new_BatchV1Api client) as [batch_v1|]; simpl; [|now left].
  destruct (metadata pod) as [meta|]; simpl; [|now left].
  destruct (select_controller_ref _) as [ref|]; [|now left].
  right. destruct (ref_kind ref =? "ReplicaSet").
  - destruct (read_namespaced_replica_set _ _ _) as [rs|]; simpl; [|eauto].
    destruct (rs_metadata rs) as [rm|]; simpl; [|eauto].
    destruct (deployment_owner _); simpl; eauto.
  - destruct ((ref_kind ref =? "StatefulSet") || (ref_kind ref =? "DaemonSet"));
      simpl; [eauto|].
    destruct (ref_kind ref =? "Job"); simpl; [|eauto].
    destruct (read_namespaced_job _ _ _); simpl; eauto.
Qed.

(** X12.  When the selected owner reference is of any kind other than
    ReplicaSet (StatefulSet, DaemonSet, Job or anything else), the resolution
    returns the kind and the name of that reference as they are; for a Job
    this holds whether the lookup of the Job succeeds or fails. *)
Theorem resolve_other_kinds_directly :
  forall (client : Client) (pod : V1Pod) (apps_v1 : AppsV1Api)
         (batch_v1 : BatchV1Api) (meta : V1ObjectMeta) (ref : V1OwnerReference),
    new_AppsV1Api client = Ok apps_v1 ->
    new_BatchV1Api client = Ok batch_v1 ->
    metadata pod = Some meta ->
    Spec.selected_owner (or_nil (owner_references meta)) = Some ref ->
    (ref_kind ref =? "ReplicaSet") = false ->
    resolve_controller_for_pod client pod
    = Ok (Some (ref_kind ref), Some (ref_name ref)).
Proof.
  intros client pod apps_v1 batch_v1 meta ref Happs Hbatch Hmeta Href Hkind.
  unfold resolve_controller_for_pod, resolve_body.
  rewrite Happs, Hbatch, Hmeta. simpl.
  rewrite select_controller_ref_spec, Href, Hkind.
  destruct ((ref_kind ref =? "StatefulSet") || (ref_kind ref =? "DaemonSet"));
    simpl; [reflexivity|].
  destruct (String.eqb_spec (ref_kind ref) "Job") as [E|_]; simpl;
    [|reflexivity].
  rewrite E. now destruct (read_namespaced_job _ _ _).
Qed.

Lemma resolve_job_demo :
  resolve_controller_for_pod Demo.client Demo.finished
  = Ok (Some "Job", Some "migrate").
Proof.
  apply (@resolve_other_kinds_directly Demo.client Demo.finished Demo.apps
           Demo.batch (Demo.meta "migrate-x" [Demo.owner "Job" "migrate"])
           (Demo.owner "Job" "migrate")); reflexivity.
Defined.

(** ** More on the scan *)

Lemma derive_reason_nonempty (st : V1PodStatus)
  (ready_condition : option V1PodCondition) :
  nonempty (derive_reason st ready_condition) = true.
Proof.
  unfold derive_reason.
  match goal with
  | |- context [if negb (truthy ?r) then or_str (phase st) "NotReady" else _] =>
      destruct (truthy r) eqn:E
  end; simpl.
  - now apply truthy_or_str in E.
  - destruct (phase st) as [[| c p]|]; reflexivity.
Qed.

Lemma scan_pod_reason (client : Client) (pod : V1Pod) (row : failing_pod) :
  scan_pod client pod = Ok (Some row) ->
  nonempty (row_reason row) = true /\ row_reason row <> "PodCompleted".
Proof.
  unfold scan_pod. destruct (status pod) as [st|]; simpl; [|discriminate].
  destruct (negb _); [|discriminate].
  destruct (String.eqb_spec (derive_reason st (find_ready_condition (or_nil (conditions st))))
              "PodCompleted") as [E|E]; [discriminate|].
  destruct (resolve_controller_for_pod client pod) as [c|]; simpl; [|discriminate].
  destruct (metadata pod) as [meta|]; simpl; [|discriminate].
  intros [= <-]. unfold row_reason. simpl.
  split; [apply derive_reason_nonempty | exact E].
Qed.

Lemma scan_items_reasons (client : Client) (items : list V1Pod) :
  forall not_ready rows,
    Forall (fun row => nonempty (row_reason row) = true
                       /\ row_reason row <> "PodCompleted") not_ready ->
    scan_items client items not_ready = Ok rows ->
    Forall (fun row => nonempty (row_reason row) = true
                       /\ row_reason row <> "PodCompleted") rows.
Proof.
  induction items as [| pod items IH]; simpl; intros not_ready rows Hacc.
  - now intros [= <-].
  - destruct (scan_pod client pod) as [[row|]|] eqn:E; simpl; try discriminate.
    + apply IH. apply Forall_app. split; [exact Hacc|].
      constructor; [|constructor]. eapply scan_pod_reason, E.
    + now apply IH.
Qed.

(** X13.  Every row the scan returns has a reason that is not empty and is
    not "PodCompleted", whatever the cluster lists. *)
Theorem failing_pod_rows_have_a_reason :
  forall (client : Client) (namespace : option string)
         (rows : list failing_pod),
    get_failing_pods client namespace = Ok rows ->
    Forall (fun row => nonempty (row_reason row) = true
                       /\ row_reason row <> "PodCompleted") rows.
Proof.
  intros client namespace rows. unfold get_failing_pods.
  destruct (new_CoreV1Api client) as [v1|]; simpl; [|discriminate].
  destruct (if truthy namespace then _ else _) as [pods|]; simpl;
    [|discriminate].
  apply scan_items_reasons. constructor.
Qed.

Lemma failing_pod_rows_demo :
  Forall (fun row => nonempty (row_reason row) = true
                     /\ row_reason row <> "PodCompleted") Demo.rows.
Proof.
  apply (@failing_pod_rows_have_a_reason Demo.client None Demo.rows).
  reflexivity.
Defined.

Lemma scan_pod_raises (client : Client) (pod : V1Pod) (e : exn) :
  scan_pod client pod = Raise e -> e = AttributeError /\ listed pod = false.
Proof.
  unfold scan_pod, listed.
  destruct (status pod) as [st|]; simpl; [|now intros [= <-]].
  destruct (negb _); [|discriminate].
  destruct (_ =? _); [discriminate|].
  destruct (resolve_total client pod) as [c ->]. simpl.
  destruct (metadata pod) as [meta|]; simpl; [discriminate|].
  now intros [= <-].
Qed.

(** X14.  The scan is not best-effort: it can fail only with AttributeError,
    which happens only when some pod of the list lacks its status or its
    metadata, and a single pod without status makes the whole scan fail,
    whatever the other pods are. *)
Theorem scan_fails_on_a_malformed_pod :
  forall (client : Client) (items : list V1Pod) (not_ready : list failing_pod),
    (forall e,
       scan_items client items not_ready = Raise e ->
       e = AttributeError /\ exists pod, In pod items /\ listed pod = false)
    /\ ((exists pod, In pod items /\ status pod = None) ->
        scan_items client items not_ready = Raise AttributeError).
Proof.
  intros client items. induction items as [| pod items IH]; intros not_ready.
  - split; [discriminate|]. intros (pod & [] & _).
  - simpl. split.
    + intros e.
      destruct (scan_pod client pod) as [r|e'] eqn:E; simpl.
      * intros H. apply IH in H. destruct H as [-> (p & Hin & Hl)].
        split; [reflexivity|]. exists p. auto.
      * intros [= <-]. apply scan_pod_raises in E. destruct E as [-> Hl].
        split; [reflexivity|]. exists pod. auto.
    + intros (p & [<-|Hin] & Hst).
      * unfold scan_pod at 1. now rewrite Hst.
      * destruct (scan_pod client pod) as [r|e'] eqn:E; simpl.
        -- apply IH. eauto.
        -- now apply scan_pod_raises in E as [-> _].
Qed.

(** ** More on the containers of a LOGS request *)

Lemma spec_names_In (cs : option (list V1Container)) (x : string) :
  In x (Spec.names cs)
  <-> exists c, In c (or_nil cs) /\ container_name c = Some x /\ x <> "".
Proof.
  unfold Spec.names. rewrite in_flat_map. split.
  - intros (c & Hin & Hx). exists c. split; [exact Hin|].
    destruct (container_name c) as [[| a n]|]; simpl in Hx; try contradiction.
    destruct Hx as [<-|[]]. split; [reflexivity | discriminate].
  - intros (c & Hin & Hc & Hne). exists c. split; [exact Hin|].
    rewrite Hc. destruct x as [| a n]; [congruence|]. now left.
Qed.

Lemma container_names_In (pod_obj : V1Pod) (x : string) :
  In x (Spec.container_names pod_obj) <-> Spec.container_named pod_obj x.
Proof.
  unfold Spec.container_names, Spec.container_named.
  destruct (spec pod_obj) as [sp|].
  - rewrite in_app_iff, !spec_names_In. split.
    + intros [(c & Hin & Hc & Hne)|(c & Hin & Hc & Hne)];
        exists sp, c; auto.
    + intros (sp' & c & [= <-] & [Hin|Hin] & Hc & Hne);
        [left | right]; exists c; auto.
  - split; [intros []|]. intros (sp & c & Hsp & _). discriminate.
Qed.

(** X15.  The names offered for a LOGS request are the names of the init
    containers and of the containers of the pod, as the field [name] of each
    gives them: every such name that is not empty is offered, nothing else
    is, each name is offered once, and they come in the order of the pod,
    init containers first, each at its first occurrence. *)
Theorem container_names_offered_once :
  forall pod_obj : V1Pod,
    NoDup (dict_fromkeys (enumerate_container_names pod_obj))
    /\ (forall x,
          In x (dict_fromkeys (enumerate_container_names pod_obj))
          <-> Spec.container_named pod_obj x)
    /\ dict_fromkeys (enumerate_container_names pod_obj)
       = Spec.dedup_first (Spec.container_names pod_obj).
Proof.
  intros pod_obj.
  rewrite dict_fromkeys_dedup_first, enumerate_container_names_spec.
  split; [apply dedup_first_NoDup|]. split; [|reflexivity].
  intros x. rewrite dedup_first_In. apply container_names_In.
Qed.

(** web-0 offers init, web and proxy. *)
Example container_names_offered_demo :
  dict_fromkeys (enumerate_container_names Demo.sidecars)
  = ["init"; "web"; "proxy"].
Proof. reflexivity. Qed.

(** ** More on [_format_bullets] *)

Lemma unchars_cons (c : Bullets.char) (l : list Bullets.char) :
  Bullets.unchars (c :: l) = c ++ Bullets.unchars l.
Proof.
  unfold Bullets.unchars. destruct l as [| d l]; simpl.
  - now rewrite string_app_nil.
  - reflexivity.
Qed.

Lemma unchars_chars_from (s : string) :
  forall cur,
    Bullets.unchars (Bullets.chars_from s cur)
    = match cur with Some c => c | None => "" end ++ s.
Proof.
  induction s as [| b s IH]; intros cur; simpl.
  - destruct cur as [c|]; simpl; [now rewrite string_app_nil | reflexivity].
  - destruct cur as [c|].
    + destruct (Bullets.is_continuation b).
      * rewrite IH. now rewrite string_app_assoc.
      * rewrite unchars_cons, IH. reflexivity.
    + rewrite IH. reflexivity.
Qed.

(** Cutting a text into characters and joining them gives the text back. *)
Lemma unchars_chars (s : string) : Bullets.unchars (Bullets.chars s) = s.
Proof.
  unfold Bullets.chars. now rewrite unchars_chars_from.
Qed.

Lemma sub_from_unmatched (body : list Bullets.char -> nat)
  (l : list Bullets.char) :
  (forall pre l', l = (pre ++ l')%list -> body l' = 0) ->
  forall prev, Bullets.sub_from body prev 0 l = l.
Proof.
  induction l as [| c l IH]; intros Hbody prev; simpl; [reflexivity|].
  rewrite (Hbody [] (c :: l) eq_refl).
  destruct (Bullets.lookbehind prev); f_equal; apply IH;
    intros pre l' ->; apply (Hbody (c :: pre) l' eq_refl).
Qed.

Lemma run_unmatched (class : Bullets.char -> bool) (l : list Bullets.char) :
  (forall c, In c l -> class c = false) -> Bullets.run class l = 0.
Proof.
  destruct l as [| c l]; simpl; [reflexivity|].
  intros H. now rewrite (H c (or_introl eq_refl)).
Qed.

Lemma in_skipn {A : Type} (x : A) (n : nat) (l : list A) :
  In x (skipn n l) -> In x l.
Proof.
  intros H. rewrite <- (firstn_skipn n l). apply in_or_app. now right.
Qed.

Lemma bodies_need_white_space (unicode_decimal : Bullets.char -> bool)
  (l : list Bullets.char) :
  (forall c, In c l -> Bullets.is_space c = false) ->
  Bullets.bullet_body l = 0 /\ Bullets.numbered_body unicode_decimal l = 0.
Proof.
  intros H. split.
  - unfold Bullets.bullet_body. destruct l as [| c rest]; [reflexivity|].
    destruct (Bullets.is_glyph c); [|reflexivity].
    rewrite run_unmatched; [reflexivity|].
    intros d Hd. apply H. now right.
  - unfold Bullets.numbered_body.
    destruct (Bullets.run (Bullets.is_digit unicode_decimal) l) as [| d];
      [reflexivity|].
    destruct (skipn (S d) l) as [| c rest] eqn:E; [reflexivity|].
    destruct (Bullets.is_dot c); [|reflexivity].
    rewrite run_unmatched; [reflexivity|].
    intros x Hx. apply H. apply (in_skipn x (S d)). rewrite E. now right.
Qed.

Lemma bodies_need_a_marker (unicode_decimal : Bullets.char -> bool)
  (l : list Bullets.char) :
  (forall c, In c l ->
     Bullets.is_glyph c = false /\ Bullets.is_digit unicode_decimal c = false) ->
  Bullets.bullet_body l = 0 /\ Bullets.numbered_body unicode_decimal l = 0.
Proof.
  intros H. split.
  - unfold Bullets.bullet_body. destruct l as [| c rest]; [reflexivity|].
    now destruct (H c (or_introl eq_refl)) as [-> _].
  - unfold Bullets.numbered_body. rewrite run_unmatched; [reflexivity|].
    intros c Hc. now destruct (H c Hc).
Qed.

Lemma format_bullets_unmatched (unicode_decimal : Bullets.char -> bool)
  (text : string) :
  (forall pre l',
     Bullets.chars text = (pre ++ l')%list ->
     Bullets.bullet_body l' = 0
     /\ Bullets.numbered_body unicode_decimal l' = 0) ->
  Bullets._format_bullets unicode_decimal text = text.
Proof.
  intros H. unfold Bullets._format_bullets, Bullets.sub.
  rewrite (@sub_from_unmatched Bullets.bullet_body (Bullets.chars text));
    [|intros pre l' E; apply (H pre l' E)].
  rewrite (@sub_from_unmatched (Bullets.numbered_body unicode_decimal)
             (Bullets.chars text));
    [|intros pre l' E; apply (H pre l' E)].
  apply unchars_chars.
Qed.

(** X16.  The normaliser returns the text as it is when the text holds no
    white space at all, and also when it holds neither a bullet glyph ('-',
    '*', the bullet sign) nor a decimal digit: prose without lists and
    numbers is never touched. *)
Theorem format_bullets_leaves_plain_text :
  forall (unicode_decimal : Bullets.char -> bool) (text : string),
    ((forall c, In c (Bullets.chars text) -> Bullets.is_space c = false) ->
     Bullets._format_bullets unicode_decimal text = text)
    /\ ((forall c, In c (Bullets.chars text) ->
           Bullets.is_glyph c = false
           /\ Bullets.is_digit unicode_decimal c = false) ->
        Bullets._format_bullets unicode_decimal text = text).
Proof.
  intros unicode_decimal text. split; intros H;
    apply format_bullets_unmatched; intros pre l' E.
  - apply bodies_need_white_space. intros c Hc. apply H.
    rewrite E. apply in_or_app. now right.
  - apply bodies_need_a_marker. intros c Hc. apply H.
    rewrite E. apply in_or_app. now right.
Qed.

(** A sentence without list markers, and a command without spaces. *)
Example format_bullets_plain_demo :
  Bullets._format_bullets no_unicode_decimal
    "Raise the memory limit of the container and restart the pod."
  = "Raise the memory limit of the container and restart the pod."
  /\ Bullets._format_bullets no_unicode_decimal "--tail=100"
     = "--tail=100".
Proof. split; reflexivity. Qed.


(** ** The prompts of the main program *)

Lemma select_namespace_listed (int : string -> option Z)
  (namespaces lines : list string) :
  forall selected rest,
    select_namespace int namespaces lines = (selected, rest) ->
    (selected = None
     \/ exists name, selected = Some name /\ In name namespaces)
    /\ exists used, lines = (used ++ rest)%list.
Proof.
  induction lines as [| line lines IH]; simpl; intros selected rest.
  - intros [= <- <-]. split; [now left | now exists []].
  - assert (Hnext : select_namespace int namespaces lines = (selected, rest) ->
              (selected = None
               \/ exists name, selected = Some name /\ In name namespaces)
              /\ exists used, (line :: lines) = (used ++ rest)%list).
    { intros H. destruct (IH _ _ H) as [Hs [used ->]].
      split; [exact Hs | now exists (line :: used)]. }
    destruct (strip_line line =? "").
    { intros [= <- <-]. split; [now left | now exists [line]]. }
    destruct (int (strip_line line)) as [idx|]; [|exact Hnext].
    destruct (idx =? 0)%Z.
    { intros [= <- <-]. split; [now left | now exists [line]]. }
    destruct ((1 <=? idx) && (idx <=? Z.of_nat (length namespaces)))%Z eqn:E;
      [|exact Hnext].
    intros [= <- <-]. split; [|now exists [line]].
    right. eexists. split; [reflexivity|].
    apply andb_prop in E. destruct E as [E1 E2].
    apply Z.leb_le in E1, E2. apply nth_In. lia.
Qed.

(** X17.  The namespace prompt returns either all namespaces or one of the
    names listed, and reads the lines in order up to the one that decides.
    The end of the input, a blank line and the number 0 all mean all
    namespaces. *)
Theorem namespace_choice_is_listed :
  forall (int : string -> option Z) (namespaces lines : list string),
    (forall selected rest,
       select_namespace int namespaces lines = (selected, rest) ->
       (selected = None
        \/ exists name, selected = Some name /\ In name namespaces)
       /\ exists used, lines = (used ++ rest)%list)
    /\ select_namespace int namespaces [] = (None, [])
    /\ (forall line rest,
          strip_line line = "" ->
          select_namespace int namespaces (line :: rest) = (None, rest))
    /\ (forall line rest,
          strip_line line <> "" ->
          int (strip_line line) = Some 0%Z ->
          select_namespace int namespaces (line :: rest) = (None, rest)).
Proof.
  intros int namespaces lines. split; [|split; [reflexivity|split]].
  - apply select_namespace_listed.
  - intros line rest E. simpl. now rewrite E.
  - intros line rest Hne H0. simpl.
    apply String.eqb_neq in Hne. now rewrite Hne, H0.
Qed.

Lemma select_pod_chosen (int : string -> option Z)
  (failing_pods : list failing_pod) (lines : list string) :
  forall row rest,
    select_pod int failing_pods lines = (Ok row, rest) ->
    In row failing_pods
    /\ exists used last, lines = (used ++ last :: rest)%list.
Proof.
  induction lines as [| line lines IH]; simpl; intros row rest;
    [discriminate|].
  assert (Hnext : select_pod int failing_pods lines = (Ok row, rest) ->
            In row failing_pods
            /\ exists used last, (line :: lines) = (used ++ last :: rest)%list).
  { intros H. destruct (IH _ _ H) as [Hin (used & last & ->)].
    split; [exact Hin | now exists (line :: used), last]. }
  destruct (int line) as [choice|]; [|exact Hnext].
  destruct ((1 <=? choice) && (choice <=? Z.of_nat (length failing_pods)))%Z;
    [|exact Hnext].
  destruct (nth_error failing_pods (Z.to_nat (choice - 1))) as [r|] eqn:E;
    [|discriminate].
  intros [= <- <-]. split; [eapply nth_error_In, E | now exists [], line].
Qed.

Lemma select_pod_raises (int : string -> option Z)
  (failing_pods : list failing_pod) (lines : list string) :
  forall e rest,
    select_pod int failing_pods lines = (Raise e, rest) ->
    e = EOFError /\ rest = [].
Proof.
  induction lines as [| line lines IH]; simpl; intros e rest.
  - now intros [= <- <-].
  - destruct (int line) as [choice|]; [|apply IH].
    destruct ((1 <=? choice) && (choice <=? Z.of_nat (length failing_pods)))%Z
      eqn:E; [|apply IH].
    destruct (nth_error failing_pods (Z.to_nat (choice - 1))) as [r|] eqn:En;
      [discriminate|].
    exfalso. apply nth_error_None in En.
    apply andb_prop in E. destruct E as [E1 E2].
    apply Z.leb_le in E1, E2. lia.
Qed.

(** X18.  The pod prompt returns a row of the list of failing pods, after
    reading at least one line; it is left only by such a choice or, when the
    input ends, by EOFError, which this prompt does not handle (the
    namespace prompt does). *)
Theorem pod_choice_is_a_row :
  forall (int : string -> option Z) (failing_pods : list failing_pod)
         (lines : list string),
    (forall row rest,
       select_pod int failing_pods lines = (Ok row, rest) ->
       In row failing_pods
       /\ exists used last, lines = (used ++ last :: rest)%list)
    /\ (forall e rest,
          select_pod int failing_pods lines = (Raise e, rest) ->
          e = EOFError /\ rest = [])
    /\ select_pod int failing_pods [] = (Raise EOFError, []).
Proof.
  intros int failing_pods lines. split; [|split; [|reflexivity]].
  - apply select_pod_chosen.
  - apply select_pod_raises.
Qed.

Lemma initial_session_on_row (all_pods : list failing_pod) (row : failing_pod) :
  In row all_pods ->
  on_row all_pods
    (initial_session (row_ns row) (row_pod row) (row_reason row) all_pods)
  /\ about_target
       (initial_session (row_ns row) (row_pod row) (row_reason row) all_pods).
Proof.
  intros Hin. split.
  - destruct (@index_of_found (row_ns row) (row_pod row) (row_reason row)
                all_pods 0 row Hin eq_refl eq_refl eq_refl)
      as (j & first & Hj & Hnth & H1 & H2 & H3).
    exists first. unfold initial_session. simpl. rewrite Hj. simpl. auto.
  - unfold about_target, initial_session. simpl. apply prefix_refl.
Qed.

Section Program.

Variable api_key : option string.
Variable config : Config.
Variable client : Client.
Variable list_namespace : CoreV1Api -> result (list V1Namespace).
Variable spawn : list string -> result string.
Variable agent_run : string -> result reply.
Variable int : string -> option Z.
Variable unicode_decimal : Bullets.char -> bool.

Lemma debug_loop_session (rounds turns : nat) (failing_pods : list failing_pod) :
  forall (t t' : terminal) (s : session),
    debug_loop client spawn agent_run int unicode_decimal rounds turns
      failing_pods t = Running s t' ->
    on_row failing_pods s /\ about_target s.
Proof.
  induction rounds as [| rounds IH]; simpl; intros t t' s; [discriminate|].
  destruct (select_pod int failing_pods (replies t)) as [[row|e] rest] eqn:Ep;
    [|discriminate].
  destruct (@select_pod_chosen int failing_pods (replies t) row rest Ep)
    as [Hin _].
  destruct (@initial_session_on_row failing_pods row Hin) as [Hrow Habout].
  destruct (chat_loop _ _ _ _ _ _ _ _ _) as [s1 t1|t1|e t1|] eqn:Ec;
    try discriminate.
  - intros [= <- <-].
    eapply chat_loop_invariant; eassumption.
  - destruct e; try discriminate. apply IH.
Qed.

End Program.

(** X19.  Whenever the program is inside a session, the pods of the session
    are the rows of a scan that succeeded, made over all namespaces or over
    one of the namespaces the cluster listed, and the session points at one
    of these rows, with a context that starts with the description of that
    pod. *)
Theorem program_session_is_on_a_scanned_row :
  forall (api_key : option string) (config : Config) (client : Client)
         (list_namespace : CoreV1Api -> result (list V1Namespace))
         (spawn : list string -> result string)
         (agent_run : string -> result reply) (int : string -> option Z)
         (unicode_decimal : Bullets.char -> bool)
         (rounds turns : nat) (t t' : terminal) (s : session),
    main api_key config client list_namespace spawn agent_run int
      unicode_decimal rounds turns t = Running s t' ->
    exists selected_ns rows,
      get_failing_pods client selected_ns = Ok rows
      /\ (selected_ns = None
          \/ exists v1_ns name,
               new_CoreV1Api client = Ok v1_ns
               /\ selected_ns = Some name
               /\ In name (sorted_namespaces list_namespace v1_ns))
      /\ on_row rows s /\ about_target s.
Proof.
  intros api_key config client list_namespace spawn agent_run int
         unicode_decimal rounds turns t t' s.
  unfold main.
  destruct (negb (truthy api_key)); [discriminate|].
  destruct (init_k8s config); [|discriminate].
  destruct (new_CoreV1Api client) as [v1_ns|]; [|discriminate].
  cbv zeta.
  destruct (match sorted_namespaces list_namespace v1_ns with
            | [] => (None, replies t)
            | _ :: _ =>
                select_namespace int (sorted_namespaces list_namespace v1_ns)
                  (replies t)
            end) as [selected_ns lines] eqn:Esel.
  destruct (get_failing_pods client selected_ns) as [[| row rows]|] eqn:Escan;
    try discriminate.
  intros H. apply debug_loop_session in H.
  exists selected_ns, (row :: rows). split; [exact Escan|]. split; [|exact H].
  destruct (sorted_namespaces list_namespace v1_ns) as [| n namespaces] eqn:En.
  - injection Esel as <- _. now left.
  - apply select_namespace_listed in Esel.
    destruct Esel as [[->|(name & -> & Hin)] _].
    + now left.
    + right. exists v1_ns, name. rewrite En. auto.
Qed.

Lemma program_session_demo :
  exists selected_ns rows,
    get_failing_pods Demo.client selected_ns = Ok rows
    /\ (selected_ns = None
        \/ exists v1_ns name,
             new_CoreV1Api Demo.client = Ok v1_ns
             /\ selected_ns = Some name
             /\ In name (sorted_namespaces demo_namespaces v1_ns))
    /\ on_row rows demo_session /\ about_target demo_session.
Proof.
  apply (@program_session_is_on_a_scanned_row (Some "key") demo_config
           Demo.client demo_namespaces no_kubectl hi_oracle demo_int
           no_unicode_decimal 1 0 answers_terminal
           {| keys := []; replies := [] |} demo_session).
  reflexivity.
Defined.

Lemma debug_loop_raised (client : Client) (spawn : list string -> result string)
  (agent_run : string -> result reply) (int : string -> option Z)
  (unicode_decimal : Bullets.char -> bool) (turns : nat)
  (failing_pods : list failing_pod) (rounds : nat) :
  forall (t t' : terminal) (e : exn),
    debug_loop client spawn agent_run int unicode_decimal rounds turns
      failing_pods t = Raised e t' ->
    e <> ValueError.
Proof.
  induction rounds as [| rounds IH]; simpl; intros t t' e; [discriminate|].
  destruct (select_pod int failing_pods (replies t)) as [[row|e0] rest] eqn:Ep.
  - destruct (chat_loop _ _ _ _ _ _ _ _ _) as [s1 t1|t1|e1 t1|];
      try discriminate.
    destruct e1; try (intros [= <- <-]; discriminate). apply IH.
  - apply select_pod_raises in Ep. destruct Ep as [-> _].
    intros [= <- <-]. discriminate.
Qed.

(** X20.  The session runs inside the [try] of the pod prompt.  A ValueError
    that leaves the session (the command runner lets one through) is taken
    for a line that is no number: the program does not end, it shows the pod
    prompt again and goes on with what is left of the input.  So the program
    never ends on a ValueError once the pods are listed. *)
Theorem session_value_error_asks_again :
  forall (client : Client) (spawn : list string -> result string)
         (agent_run : string -> result reply) (int : string -> option Z)
         (unicode_decimal : Bullets.char -> bool)
         (rounds turns : nat) (failing_pods : list failing_pod) (t : terminal),
    (forall e t',
       debug_loop client spawn agent_run int unicode_decimal rounds turns
         failing_pods t = Raised e t' ->
       e <> ValueError)
    /\ (forall row rest t',
          select_pod int failing_pods (replies t) = (Ok row, rest) ->
          chat_loop client spawn agent_run int unicode_decimal failing_pods
            turns
            (initial_session (row_ns row) (row_pod row) (row_reason row)
               failing_pods)
            {| keys := keys t; replies := rest |} = Crashed ValueError t' ->
          debug_loop client spawn agent_run int unicode_decimal (S rounds)
            turns failing_pods t
          = debug_loop client spawn agent_run int unicode_decimal rounds turns
              failing_pods t').
Proof.
  intros client spawn agent_run int unicode_decimal rounds turns failing_pods t.
  split.
  - intros e t'. apply debug_loop_raised.
  - intros row rest t' Hsel Hchat. cbn [debug_loop]. now rewrite Hsel, Hchat.
Qed.

(** The operator picks api-1 and asks why; the oracle asks for the events
    and the command runner raises ValueError.  The pod prompt comes again,
    and only the end of the input ends the program. *)
Example session_value_error_demo :
  chat_loop Demo.client refuses_arguments events_oracle demo_int
    no_unicode_decimal Demo.rows 1 demo_session
    {| keys := keys events_terminal; replies := [] |}
  = Crashed ValueError {| keys := []; replies := [] |}
  /\ debug_loop Demo.client refuses_arguments events_oracle demo_int
       no_unicode_decimal 2 1 Demo.rows events_terminal
     = Raised EOFError {| keys := []; replies := [] |}.
Proof. split; reflexivity. Qed.

(** ** The commands of a session *)

Lemma action_query_read_only (client : Client) (int : string -> option Z)
  (result : ActionRequest) (s : session) (t t' : terminal) (cmd : argv)
  (args : list string) :
  action_query client int result s t = (Some cmd, t') ->
  all_str cmd = Some args ->
  read_only args = true.
Proof.
  unfold action_query.
  destruct (req_type result);
    try (destruct (choose_container _ _ _ _ _) as [selected t1]);
    try discriminate;
    intros [= <- <-]; unfold logs_cmd; simpl;
    try destruct (truthy selected);
    try destruct (req_name result);
    try destruct (req_namespace result);
    simpl; try discriminate; intros [= <-]; reflexivity.
Qed.

Lemma run_cmd_read_only_host (spawn : list string -> result string)
  (cmd : argv) :
  (forall args, all_str cmd = Some args -> read_only args = true) ->
  run_cmd (read_only_host spawn) cmd = run_cmd spawn cmd.
Proof.
  intros H. unfold run_cmd, check_output, read_only_host.
  destruct (all_str cmd) as [args|]; [|reflexivity].
  now rewrite (H args eq_refl).
Qed.

Section ReadOnly.

Variables (client : Client) (spawn : list string -> result string).
Variables (agent_run : string -> result reply) (int : string -> option Z).
Variables (unicode_decimal : Bullets.char -> bool).

Lemma dispatch_read_only_host (result : ActionRequest) (s : session)
  (t : terminal) :
  dispatch client (read_only_host spawn) int result s t
  = dispatch client spawn int result s t.
Proof.
  unfold dispatch.
  destruct (action_query client int result s t) as [[cmd|] t1] eqn:E;
    [|reflexivity].
  rewrite run_cmd_read_only_host; [reflexivity|].
  intros args Ha. eapply action_query_read_only; eassumption.
Qed.

Lemma oracle_turn_read_only_host (user_input : string) (s : session)
  (t : terminal) :
  oracle_turn client (read_only_host spawn) agent_run int unicode_decimal
    user_input s t
  = oracle_turn client spawn agent_run int unicode_decimal user_input s t.
Proof.
  unfold oracle_turn.
  destruct (agent_run _) as [[result|result|o]|e]; try reflexivity.
  destruct (req_type result); try rewrite dispatch_read_only_host;
    reflexivity.
Qed.

Lemma chat_iteration_read_only_host (all_pods : list failing_pod)
  (s : session) (t : terminal) :
  chat_iteration client (read_only_host spawn) agent_run int unicode_decimal
    all_pods s t
  = chat_iteration client spawn agent_run int unicode_decimal all_pods s t.
Proof.
  unfold chat_iteration.
  destruct (read_user_input_or_ctrl_n (keys t))
    as [[[user_input ctrl_n] rest]|]; [|reflexivity].
  destruct ctrl_n; [reflexivity|]. cbv zeta.
  destruct (existsb _ _); [reflexivity|].
  destruct (Text.startswith _ _); [reflexivity|].
  apply oracle_turn_read_only_host.
Qed.

Lemma chat_loop_read_only_host (all_pods : list failing_pod) (fuel : nat) :
  forall (s : session) (t : terminal),
    chat_loop client (read_only_host spawn) agent_run int unicode_decimal
      all_pods fuel s t
    = chat_loop client spawn agent_run int unicode_decimal all_pods fuel s t.
Proof.
  induction fuel as [| fuel IH]; simpl; intros s t; [reflexivity|].
  rewrite chat_iteration_read_only_host.
  destruct (chat_iteration _ _ _ _ _ _ s t); auto.
Qed.

Lemma debug_loop_read_only_host (turns : nat) (failing_pods : list failing_pod)
  (rounds : nat) :
  forall t : terminal,
    debug_loop client (read_only_host spawn) agent_run int unicode_decimal
      rounds turns failing_pods t
    = debug_loop client spawn agent_run int unicode_decimal rounds turns
        failing_pods t.
Proof.
  induction rounds as [| rounds IH]; simpl; intros t; [reflexivity|].
  destruct (select_pod int failing_pods (replies t)) as [[row|e] rest];
    [|reflexivity].
  rewrite chat_loop_read_only_host.
  destruct (chat_loop _ _ _ _ _ _ _ _ _) as [s1 t1|t1|e t1|]; try reflexivity.
  destruct e; auto.
Qed.

End ReadOnly.

(** X21.  A session, and the whole program, start no program other than
    kubectl and give it no verb other than describe, get and logs: on a host
    that refuses every other command they run exactly as on a host that
    starts everything, whatever the oracle requests and the operator types. *)
Theorem session_runs_read_only_commands :
  forall (api_key : option string) (config : Config) (client : Client)
         (list_namespace : CoreV1Api -> result (list V1Namespace))
         (spawn : list string -> result string)
         (agent_run : string -> result reply) (int : string -> option Z)
         (unicode_decimal : Bullets.char -> bool)
         (all_pods : list failing_pod) (rounds fuel : nat) (s : session)
         (t : terminal),
    chat_loop client (read_only_host spawn) agent_run int unicode_decimal
      all_pods fuel s t
    = chat_loop client spawn agent_run int unicode_decimal all_pods fuel s t
    /\ main api_key config client list_namespace (read_only_host spawn)
         agent_run int unicode_decimal rounds fuel t
       = main api_key config client list_namespace spawn agent_run int
           unicode_decimal rounds fuel t.
Proof.
  intros api_key config client list_namespace spawn agent_run int
         unicode_decimal all_pods rounds fuel s t.
  split; [apply chat_loop_read_only_host|].
  unfold main.
  destruct (negb (truthy api_key)); [reflexivity|].
  destruct (init_k8s config); [|reflexivity].
  destruct (new_CoreV1Api client) as [v1_ns|]; [|reflexivity].
  cbv zeta.
  destruct (match sorted_namespaces list_namespace v1_ns with
            | [] => (None, replies t)
            | _ :: _ =>
                select_namespace int (sorted_namespaces list_namespace v1_ns)
                  (replies t)
            end) as [selected_ns lines].
  destruct (get_failing_pods client selected_ns) as [[| row rows]|];
    try reflexivity.
  apply debug_loop_read_only_host.
Qed.

(** ** The list of namespaces *)

Lemma str_le_refl (a : string) : str_le a a = true.
Proof.
  unfold str_le. destruct (String_as_OT.compare_spec a a) as [_|_|H];
    try reflexivity.
  destruct String_as_OT.lt_strorder as [Hirr _]. exfalso. exact (Hirr a H).
Qed.

Lemma lt_str_le (a b : string) : String_as_OT.lt a b -> str_le a b = true.
Proof.
  intros H. unfold str_le.
  destruct (String_as_OT.compare_spec a b) as [_|_|H']; try reflexivity.
  destruct String_as_OT.lt_strorder as [Hirr Htrans]. exfalso.
  exact (Hirr a (Htrans a b a H H')).
Qed.

Lemma str_le_trans (a b c : string) :
  str_le a b = true -> str_le b c = true -> str_le a c = true.
Proof.
  intros Hab Hbc.
  apply str_le_true_cases in Hab. apply str_le_true_cases in Hbc.
  destruct Hab as [->|Hab]; destruct Hbc as [<-|Hbc].
  - apply str_le_refl.
  - now apply lt_str_le.
  - now apply lt_str_le.
  - apply lt_str_le. now transitivity b.
Qed.

Lemma insert_sorted_ascending (x : string) (l : list string) :
  ascending l -> ascending (insert_sorted x l).
Proof.
  unfold ascending. induction 1 as [| z l Hs IH Hz]; simpl.
  - repeat constructor.
  - destruct (str_le x z) eqn:Hle.
    + constructor; [now constructor|].
      constructor; [exact Hle|].
      rewrite Forall_forall in Hz |- *. intros w Hw.
      eapply str_le_trans; [exact Hle | now apply Hz].
    + apply str_le_false_lt, lt_str_le in Hle.
      constructor; [exact IH|].
      rewrite Forall_forall in Hz |- *. intros w Hw.
      apply insert_sorted_In in Hw. destruct Hw as [->|Hw]; auto.
Qed.

Lemma sorted_ascending (l : list string) : ascending (sorted l).
Proof.
  unfold sorted. induction l as [| x l IH]; simpl.
  - constructor.
  - now apply insert_sorted_ascending.
Qed.

Lemma insert_sorted_length (x : string) (l : list string) :
  length (insert_sorted x l) = S (length l).
Proof.
  induction l as [| z l IH]; simpl; [reflexivity|].
  destruct (str_le x z); simpl; [reflexivity | now rewrite IH].
Qed.

Lemma sorted_length (l : list string) : length (sorted l) = length l.
Proof.
  unfold sorted. induction l as [| x l IH]; simpl; [reflexivity|].
  now rewrite insert_sorted_length, IH.
Qed.

Lemma namespace_names_named (items : list V1Namespace) :
  Forall (fun item => ns_metadata item <> None) items ->
  exists names,
    namespace_names items = Ok names
    /\ length names = length items
    /\ forall name,
         In name names
         <-> exists item m,
               In item items /\ ns_metadata item = Some m /\ meta_name m = name.
Proof.
  induction 1 as [| item items Hm _ IH]; simpl.
  - exists []. split; [reflexivity|]. split; [reflexivity|].
    intros name. split; [intros [] | intros (item & m & [] & _)].
  - destruct IH as (names & -> & Hlen & Hin).
    destruct (ns_metadata item) as [m|] eqn:E; [|congruence]. simpl.
    exists (meta_name m :: names). split; [reflexivity|].
    split; [simpl; now rewrite Hlen|].
    intros name. simpl. rewrite Hin. split.
    + intros [<-|(i & m' & Hi & Hm' & Hn)].
      * exists item, m. auto.
      * exists i, m'. auto.
    + intros (i & m' & [<-|Hi] & Hm' & Hn).
      * left. congruence.
      * right. exists i, m'. auto.
Qed.

Lemma namespace_names_unnamed (items : list V1Namespace) :
  Exists (fun item => ns_metadata item = None) items ->
  exists e, namespace_names items = Raise e.
Proof.
  induction 1 as [item items Hm | item items _ IH]; simpl.
  - rewrite Hm. simpl. eauto.
  - destruct (ns_metadata item); simpl; [|eauto].
    destruct IH as [e ->]. simpl. eauto.
Qed.

(** X22.  The namespaces offered at the prompt are in ascending order.  When
    every namespace of the listing carries its metadata they are the names
    of the listing, as many as it has items; when the listing fails, or a
    single item lacks its metadata, no namespace at all is offered. *)
Theorem namespaces_offered_sorted_or_none :
  forall (list_namespace : CoreV1Api -> result (list V1Namespace))
         (v1_ns : CoreV1Api),
    ascending (sorted_namespaces list_namespace v1_ns)
    /\ (forall items,
          list_namespace v1_ns = Ok items ->
          Forall (fun item => ns_metadata item <> None) items ->
          length (sorted_namespaces list_namespace v1_ns) = length items
          /\ forall name,
               In name (sorted_namespaces list_namespace v1_ns)
               <-> exists item m,
                     In item items /\ ns_metadata item = Some m
                     /\ meta_name m = name)
    /\ (forall items,
          list_namespace v1_ns = Ok items ->
          Exists (fun item => ns_metadata item = None) items ->
          sorted_namespaces list_namespace v1_ns = [])
    /\ (forall e,
          list_namespace v1_ns = Raise e ->
          sorted_namespaces list_namespace v1_ns = []).
Proof.
  intros list_namespace v1_ns. unfold sorted_namespaces.
  split; [|split; [|split]].
  - destruct (list_namespace v1_ns) as [items|]; simpl; [|constructor].
    destruct (namespace_names items) as [names|]; simpl; [|constructor].
    apply sorted_ascending.
  - intros items -> Hall. simpl.
    destruct (namespace_names_named Hall) as (names & -> & Hlen & Hin). simpl.
    split; [now rewrite sorted_length|].
    intros name. now rewrite sorted_In.
  - intros items -> Hex. simpl.
    now destruct (namespace_names_unnamed Hex) as [e ->].
  - now intros e ->.
Qed.

(** The names come back in order; a namespace without metadata empties the
    list. *)
Example namespaces_offered_demo :
  sorted_namespaces
    (fun _ => Ok [{| ns_metadata := Some (Demo.meta "prod" []) |};
                  {| ns_metadata := Some (Demo.meta "dev" []) |};
                  {| ns_metadata := Some (Demo.meta "kube-system" []) |}])
    Demo.core
  = ["dev"; "kube-system"; "prod"]
  /\ sorted_namespaces
       (fun _ => Ok [{| ns_metadata := Some (Demo.meta "prod" []) |};
                     {| ns_metadata := None |}])
       Demo.core
     = [].
Proof. split; reflexivity. Qed.

(** ** The history of a session *)

Section History.

Variables (client : Client) (spawn : list string -> result string).
Variables (agent_run : string -> result reply) (int : string -> option Z).
Variables (unicode_decimal : Bullets.char -> bool).
Variable all_pods : list failing_pod.

Lemma continues_trans (s s1 s' : session) :
  continues s s1 -> continues s1 s' -> continues s s'.
Proof.
  intros (E1 & E2 & E3 & E4 & b1 & Eb1) (F1 & F2 & F3 & F4 & b2 & Eb2).
  unfold continues. rewrite F1, F2, F3, F4, E1, E2, E3, E4.
  repeat split. exists (b1 ++ b2).
  now rewrite Eb2, Eb1, string_app_assoc.
Qed.

Lemma chat_loop_history (fuel : nat) :
  forall (s s' : session) (t t' : terminal),
    chat_loop client spawn agent_run int unicode_decimal all_pods fuel s t
    = Continue s' t' ->
    continues s s'
    \/ exists idx row,
         nth_error all_pods idx = Some row
         /\ continues (select_row idx row) s'.
Proof.
  induction fuel as [| fuel IH]; simpl; intros s s' t t'.
  - intros [= <- <-]. left. repeat split. exists "".
    now rewrite string_app_nil.
  - destruct (chat_iteration _ _ _ _ _ _ s t) as [s1 t1| | |] eqn:E;
      try discriminate.
    intros H. apply chat_iteration_shape in E. apply IH in H.
    destruct H as [H|H]; [|now right].
    destruct E as [E|(idx & row & Hrow & ->)].
    + left. eapply continues_trans; [exact E | exact H].
    + right. exists idx, row. auto.
Qed.

End History.

(** X23.  After any number of turns the session either still has the target
    it started with and a context that starts with the whole context it
    started with, or it has the target of a row of the working set and a
    context that starts with the description of that pod: text is only ever
    added to the context, except by a switch, which drops all of it. *)
Theorem history_kept_until_a_switch :
  forall (client : Client) (spawn : list string -> result string)
         (agent_run : string -> result reply) (int : string -> option Z)
         (unicode_decimal : Bullets.char -> bool)
         (all_pods : list failing_pod) (fuel : nat)
         (s s' : session) (t t' : terminal),
    chat_loop client spawn agent_run int unicode_decimal all_pods fuel s t
    = Continue s' t' ->
    continues s s'
    \/ exists idx row,
         nth_error all_pods idx = Some row
         /\ continues (select_row idx row) s'.
Proof.
  intros client spawn agent_run int unicode_decimal all_pods fuel s s' t t'.
  apply chat_loop_history.
Qed.

Lemma history_demo :
  continues demo_session
    {| cur_ns := "prod"; cur_pod := "api-1"; cur_reason := "CrashLoopBackOff";
       current_idx := 0;
       context := "Pod api-1 in namespace prod is failing: CrashLoopBackOff"
                  ++ LF ++ LF ++ "# Model Response" ++ LF ++ "ok" ++ LF |}
  \/ exists idx row,
       nth_error Demo.rows idx = Some row
       /\ continues (select_row idx row)
            {| cur_ns := "prod"; cur_pod := "api-1";
               cur_reason := "CrashLoopBackOff"; current_idx := 0;
               context :=
                 "Pod api-1 in namespace prod is failing: CrashLoopBackOff"
                 ++ LF ++ LF ++ "# Model Response" ++ LF ++ "ok" ++ LF |}.
Proof.
  apply (@history_kept_until_a_switch Demo.client no_kubectl hi_oracle demo_int
           no_unicode_decimal Demo.rows 1 demo_session
           {| cur_ns := "prod"; cur_pod := "api-1";
              cur_reason := "CrashLoopBackOff"; current_idx := 0;
              context :=
                "Pod api-1 in namespace prod is failing: CrashLoopBackOff"
                ++ LF ++ LF ++ "# Model Response" ++ LF ++ "ok" ++ LF |}
           hi_terminal {| keys := []; replies := [] |}).
  reflexivity.
Defined.
